(** * cTCP (src/ctcp.c): a shallow embedding and its properties

    The protocol engine of [src/ctcp.c] is embedded as pure functions over
    explicit connection states.  Calls to the collaborators the file is
    linked against ([conn_send], [conn_output], [conn_remove]) are recorded
    as a trace of events; [conn_input] and [current_time_ms] are read from
    the arguments of each entry point. *)

From Stdlib Require Import ZArith List Bool Lia Sorted.
From Stdlib.Strings Require Import Byte.
Import ListNotations.
Open Scope Z_scope.

(** ** Machine integers *)

(** [uint16_t], [uint32_t] and [size_t] values are integers reduced modulo
    the width of the type. *)
Definition wrap16 (x : Z) : Z := x mod 2 ^ 16.
Definition wrap32 (x : Z) : Z := x mod 2 ^ 32.
Definition wrap64 (x : Z) : Z := x mod 2 ^ 64.

Definition bswap16 (x : Z) : Z :=
  (x mod 256) * 2 ^ 8 + (x / 2 ^ 8) mod 256.

Definition bswap32 (x : Z) : Z :=
  (x mod 256) * 2 ^ 24 + ((x / 2 ^ 8) mod 256) * 2 ^ 16
  + ((x / 2 ^ 16) mod 256) * 2 ^ 8 + (x / 2 ^ 24) mod 256.

(** A 32-bit value assembled from four bytes, least significant first. *)
Definition of_bytes4 (b0 b1 b2 b3 : Z) : Z :=
  b0 + 256 * b1 + 65536 * b2 + 16777216 * b3.

(** ** What the headers provide

    [ctcp.h], [ctcp_sys.h], [ctcp_utils.h] and [ctcp_linked_list.h] are not
    part of the sources; the constants they define and the byte order of the
    host are taken as parameters. *)
Record platform : Type := mkPlatform {
  little_endian : bool;      (* byte order of the host *)
  SEGMENT_SIZE : Z;          (* sizeof(ctcp_segment_t) *)
  MAX_SEG_DATA_SIZE : Z;
  MAX_NUM_XMITS : Z;
  TH_ACK : Z;
  TH_FIN : Z
}.

(** The wire segment.  Fields hold the raw content of the struct, that is,
    values in network byte order; [seqno], [ackno] and [flags] are 32-bit
    fields, accessed with [htonl]/[ntohl] throughout the source, and [len] is
    a 16-bit field, read with [ntohs]: a store to it keeps the low 16 bits
    of the value. *)
Module Segment.
Record t : Type := mk {
  seqno : Z;
  ackno : Z;
  len : Z;
  flags : Z;
  window : Z;
  cksum : Z;
  data : list byte
}.

(** [ctcp_segment_t s = {0}] and [calloc]. *)
Definition zero : t := mk 0 0 0 0 0 0 [].

Definition set_seqno (v : Z) (s : t) : t :=
  mk v (ackno s) (len s) (flags s) (window s) (cksum s) (data s).
Definition set_ackno (v : Z) (s : t) : t :=
  mk (seqno s) v (len s) (flags s) (window s) (cksum s) (data s).
Definition set_len (v : Z) (s : t) : t :=
  mk (seqno s) (ackno s) (wrap16 v) (flags s) (window s) (cksum s) (data s).
Definition set_flags (v : Z) (s : t) : t :=
  mk (seqno s) (ackno s) (len s) v (window s) (cksum s) (data s).
Definition set_cksum (v : Z) (s : t) : t :=
  mk (seqno s) (ackno s) (len s) (flags s) (window s) v (data s).
Definition set_data (v : list byte) (s : t) : t :=
  mk (seqno s) (ackno s) (len s) (flags s) (window s) (cksum s) v.

Definition eq_dec (a b : t) : {a = b} + {a <> b}.
Proof.
  decide equality;
    try apply Z.eq_dec; apply (list_eq_dec Byte.byte_eq_dec).
Defined.
End Segment.

Definition ctcp_segment_t : Type := Segment.t.

(** A [conn_t *] is identified by a number. *)
Definition conn_t : Type := nat.

(** [ctcp_config_t]. *)
Record ctcp_config_t : Type := mkConfig {
  cfg_recv_window : Z;
  cfg_send_window : Z;
  cfg_timer : Z;
  cfg_rt_timeout : Z
}.

(** [struct ctcp_state].  The intrusive [next]/[prev] links are represented
    by the position of the state in the list [state_list] (see below). *)
Record ctcp_state_t : Type := mkState {
  conn : conn_t;
  segments : list ctcp_segment_t;
  seqno : Z;
  ackno : Z;
  send_base : Z;
  recv_base : Z;
  send_window : Z;
  recv_window : Z;
  rt_timeout : Z;
  retransmit_count : Z;
  last_sent_time : Z
}.

Definition set_segments (v : list ctcp_segment_t) (s : ctcp_state_t) :=
  mkState (conn s) v (seqno s) (ackno s) (send_base s) (recv_base s)
          (send_window s) (recv_window s) (rt_timeout s)
          (retransmit_count s) (last_sent_time s).
Definition set_seqno (v : Z) (s : ctcp_state_t) :=
  mkState (conn s) (segments s) v (ackno s) (send_base s) (recv_base s)
          (send_window s) (recv_window s) (rt_timeout s)
          (retransmit_count s) (last_sent_time s).
Definition set_send_base (v : Z) (s : ctcp_state_t) :=
  mkState (conn s) (segments s) (seqno s) (ackno s) v (recv_base s)
          (send_window s) (recv_window s) (rt_timeout s)
          (retransmit_count s) (last_sent_time s).
Definition set_recv_base (v : Z) (s : ctcp_state_t) :=
  mkState (conn s) (segments s) (seqno s) (ackno s) (send_base s) v
          (send_window s) (recv_window s) (rt_timeout s)
          (retransmit_count s) (last_sent_time s).
Definition set_retransmit_count (v : Z) (s : ctcp_state_t) :=
  mkState (conn s) (segments s) (seqno s) (ackno s) (send_base s)
          (recv_base s) (send_window s) (recv_window s) (rt_timeout s)
          v (last_sent_time s).
Definition set_last_sent_time (v : Z) (s : ctcp_state_t) :=
  mkState (conn s) (segments s) (seqno s) (ackno s) (send_base s)
          (recv_base s) (send_window s) (recv_window s) (rt_timeout s)
          (retransmit_count s) v.

(** ** Collaborators *)

(** Calls made to the connection layer, in program order.  The buffer of
    [conn_output c buf n] is given by the bytes stored at [buf]; a call with
    [n = 0] is the end-of-input signal, for which the source passes a null
    buffer. *)
Inductive event : Type :=
| conn_send (c : conn_t) (s : ctcp_segment_t) (n : Z)
| conn_output (c : conn_t) (buf : list byte) (n : Z)
| conn_remove (c : conn_t).

Definition end_of_input_signal (c : conn_t) : event := conn_output c [] 0.

Definition is_end_of_input (ev : event) : bool :=
  match ev with
  | conn_output _ _ n => n =? 0
  | _ => false
  end.

Definition is_send (ev : event) : bool :=
  match ev with
  | conn_send _ _ _ => true
  | _ => false
  end.

(** The bytes the application sink has been given by a trace. *)
Definition sink_bytes (evs : list event) : list byte :=
  flat_map (fun ev => match ev with
                      | conn_output _ buf n => firstn (Z.to_nat n) buf
                      | _ => []
                      end) evs.

(** One call of [conn_input]: nothing ready (returns 0), end of input
    (returns -1), or some bytes copied to the buffer. *)
Inductive input_result : Type :=
| would_block
| end_of_input
| bytes (bs : list byte).

Definition bytes_read (r : input_result) : Z :=
  match r with
  | would_block => 0
  | end_of_input => -1
  | bytes bs => Z.of_nat (length bs)
  end.

Definition buffer_of (r : input_result) : list byte :=
  match r with
  | bytes bs => bs
  | _ => []
  end.

(** What a traversal ends in: the state it leaves, or a read of memory that
    [ctcp_destroy] has released. *)
Inductive sweep (A : Type) : Type :=
| swept (a : A)
| use_after_free.
Arguments swept {A} a.
Arguments use_after_free {A}.

Section Protocol.

Variable P : platform.

(** *** Byte order *)

Definition htonl (x : Z) : Z :=
  if little_endian P then bswap32 (wrap32 x) else wrap32 x.
Definition ntohl (x : Z) : Z := htonl x.
Definition htons (x : Z) : Z :=
  if little_endian P then bswap16 (wrap16 x) else wrap16 x.
Definition ntohs (x : Z) : Z := htons x.

(** [flags & TH_X], as a C condition. *)
Definition has_flag (flags bit : Z) : bool :=
  negb (Z.land flags bit =? 0).

(** *** ctcp_init *)

(** [conn] is [None] for a null pointer.  The new state is linked at the
    head of [state_list]. *)
Definition ctcp_init (c : option conn_t) (cfg : ctcp_config_t)
           (state_list : list ctcp_state_t)
  : option ctcp_state_t * list ctcp_state_t :=
  match c with
  | None => (None, state_list)
  | Some c =>
      let state :=
        {| conn := c;
           segments := [];
           seqno := 1;
           ackno := 0;
           send_base := 1;
           recv_base := 1;
           send_window := wrap32 (cfg_send_window cfg * MAX_SEG_DATA_SIZE P);
           recv_window := wrap32 (cfg_recv_window cfg * MAX_SEG_DATA_SIZE P);
           rt_timeout := cfg_rt_timeout cfg;
           retransmit_count := 0;
           last_sent_time := 0 |} in
      (Some state, state :: state_list)
  end.

(** *** ctcp_destroy *)

(** The calls [ctcp_destroy] makes; the state itself is freed and is no
    longer part of the result of the caller. *)
Definition ctcp_destroy (state : ctcp_state_t) : list event :=
  [conn_remove (conn state)].

(** *** ctcp_read *)

Definition fin_segment (state : ctcp_state_t) : ctcp_segment_t :=
  Segment.set_len (htonl (SEGMENT_SIZE P))
    (Segment.set_seqno (htonl (seqno state))
       (Segment.set_flags (htonl (TH_FIN P)) Segment.zero)).

Definition data_segment (state : ctcp_state_t) (buffer : list byte)
  : ctcp_segment_t :=
  Segment.set_data buffer
    (Segment.set_len (htonl (SEGMENT_SIZE P + Z.of_nat (length buffer)))
       (Segment.set_seqno (htonl (seqno state)) Segment.zero)).

(** [now] is the reading of [current_time_ms] during the call (the clock is
    taken not to advance while an entry point runs); [input] lists the
    results of the successive [conn_input] calls, after which [conn_input]
    has nothing ready. *)
Fixpoint ctcp_read (now : Z) (input : list input_result)
         (state : ctcp_state_t) : ctcp_state_t * list event :=
  if seqno state <? wrap32 (send_base state + send_window state) then
    match input with
    | [] => (state, [])
    | r :: input' =>
        if bytes_read r =? 0 then (state, [])
        else if bytes_read r =? -1 then
          (set_seqno (wrap32 (seqno state + 1)) state,
           [conn_send (conn state) (fin_segment state) (SEGMENT_SIZE P)])
        else
          let segment := data_segment state (buffer_of r) in
          let state' :=
            set_last_sent_time now
              (set_seqno (wrap32 (seqno state + bytes_read r))
                 (set_segments (segments state ++ [segment]) state)) in
          let '(state'', evs) := ctcp_read now input' state' in
          (state'',
           conn_send (conn state) segment (SEGMENT_SIZE P + bytes_read r)
             :: evs)
    end
  else (state, []).

(** *** ctcp_receive *)

(** The loop that removes acknowledged segments from the front of the list
    of unacknowledged segments. *)
Fixpoint remove_acked (ackno : Z) (segments : list ctcp_segment_t)
  : list ctcp_segment_t :=
  match segments with
  | [] => []
  | first :: rest =>
      if ntohl (Segment.seqno first) <? ackno
      then remove_acked ackno rest
      else segments
  end.

Definition ack_segment (seqno data_len : Z) : ctcp_segment_t :=
  Segment.set_len (htonl (SEGMENT_SIZE P))
    (Segment.set_ackno (htonl (seqno + data_len))
       (Segment.set_flags (htonl (TH_ACK P)) Segment.zero)).

(** The effect of the ACK block on the state. *)
Definition receive_ack (state : ctcp_state_t) (segment : ctcp_segment_t)
  : ctcp_state_t :=
  let flags := ntohl (Segment.flags segment) in
  if has_flag flags (TH_ACK P) then
    let ackno := ntohl (Segment.ackno segment) in
    if ackno >? send_base state then
      set_segments (remove_acked ackno (segments state))
        (set_send_base ackno state)
    else state
  else state.

(** The calls of the payload block. *)
Definition receive_data (state : ctcp_state_t) (segment : ctcp_segment_t)
           (len : Z) : list event :=
  let seqno := ntohl (Segment.seqno segment) in
  if len >? SEGMENT_SIZE P then
    let data_len := len - SEGMENT_SIZE P in
    [conn_output (conn state) (Segment.data segment) data_len;
     conn_send (conn state) (ack_segment seqno data_len) (SEGMENT_SIZE P)]
  else [].

(** [len] is the number of bytes received.  The result state is [None] when
    the connection has been destroyed. *)
Definition ctcp_receive (state : ctcp_state_t) (segment : ctcp_segment_t)
           (len : Z) : option ctcp_state_t * list event :=
  let flags := ntohl (Segment.flags segment) in
  let state' := receive_ack state segment in
  let evs := receive_data state' segment len in
  if has_flag flags (TH_FIN P) then
    (None, evs ++ end_of_input_signal (conn state') :: ctcp_destroy state')
  else (Some state', evs).

(** *** ctcp_output *)

(** The loop of [ctcp_output], over the nodes of [state->segments] that are
    still in the list. *)
Fixpoint output_loop (state : ctcp_state_t) (nodes : list ctcp_segment_t)
  : ctcp_state_t * list event :=
  match nodes with
  | [] => (set_segments [] state, [])
  | segment :: rest =>
      let seqno := ntohl (Segment.seqno segment) in
      let data_len := wrap64 (ntohs (Segment.len segment) - SEGMENT_SIZE P) in
      if seqno =? recv_base state then
        let state' :=
          set_recv_base (wrap32 (recv_base state + data_len)) state in
        let '(state'', evs) := output_loop state' rest in
        (state'',
         conn_output (conn state) (Segment.data segment) data_len :: evs)
      else (set_segments nodes state, [])
  end.

Definition ctcp_output (state : ctcp_state_t) : ctcp_state_t * list event :=
  output_loop state (segments state).

(** *** ctcp_timer *)

(** One visit of a node by the inner loop, for a clock that stands still
    during the call: [now] is what [current_time_ms] reads, both for the
    test and for the new [last_sent_time] ([timer_visit_clock] below reads
    the clock afresh each time).  The boolean tells whether [ctcp_destroy]
    was called. *)
Definition timer_visit (now : Z) (state : ctcp_state_t)
           (segment : ctcp_segment_t) : ctcp_state_t * list event * bool :=
  if now - last_sent_time state >? rt_timeout state then
    let sent := conn_send (conn state) segment (ntohs (Segment.len segment)) in
    let state' :=
      set_last_sent_time now
        (set_retransmit_count (retransmit_count state + 1) state) in
    if retransmit_count state' >=? MAX_NUM_XMITS P
    then (state', sent :: ctcp_destroy state', true)
    else (state', [sent], false)
  else (state, [], false).

(** The inner loop.  After [ctcp_destroy(state)] the loop goes on with
    [node = node->next], a read of a node that [ll_destroy] has released. *)
Fixpoint timer_nodes (now : Z) (state : ctcp_state_t)
         (nodes : list ctcp_segment_t) : sweep ctcp_state_t * list event :=
  match nodes with
  | [] => (swept state, [])
  | segment :: next =>
      match timer_visit now state segment with
      | (_, evs, true) => (use_after_free, evs)
      | (state', evs, false) =>
          let '(r, evs') := timer_nodes now state' next in
          (r, evs ++ evs')
      end
  end.

(** The outer loop over [state_list]. *)
Fixpoint ctcp_timer (now : Z) (state_list : list ctcp_state_t)
  : sweep (list ctcp_state_t) * list event :=
  match state_list with
  | [] => (swept [], [])
  | state :: next =>
      match timer_nodes now state (segments state) with
      | (swept state', evs) =>
          let '(r, evs') := ctcp_timer now next in
          (match r with
           | swept next' => swept (state' :: next')
           | use_after_free => use_after_free
           end, evs ++ evs')
      | (use_after_free, evs) => (use_after_free, evs)
      end
  end.

End Protocol.

(** ** Sample runs

    The examples below run on the following platform: a little-endian host
    with the constants of the cTCP framework the file is written against
    (18-byte header, [TH_FIN = 0x01] and [TH_ACK = 0x10] of netinet/tcp.h).
    The general theorems hold for every platform. *)
Definition sample : platform :=
  {| little_endian := true;
     SEGMENT_SIZE := 18;
     MAX_SEG_DATA_SIZE := 1440;
     MAX_NUM_XMITS := 6;
     TH_ACK := 16;
     TH_FIN := 1 |}.

Definition sample_config (send recv rt : Z) : ctcp_config_t :=
  {| cfg_recv_window := recv; cfg_send_window := send;
     cfg_timer := 40; cfg_rt_timeout := rt |}.

(** The state [ctcp_init] returns on [sample] for connection 0 with windows
    of [send] and [recv] segments. *)
Definition fresh (send recv rt : Z) : ctcp_state_t :=
  {| conn := 0%nat; segments := []; seqno := 1; ackno := 0;
     send_base := 1; recv_base := 1;
     send_window := wrap32 (send * MAX_SEG_DATA_SIZE sample);
     recv_window := wrap32 (recv * MAX_SEG_DATA_SIZE sample);
     rt_timeout := rt; retransmit_count := 0; last_sent_time := 0 |}.

(** An inbound segment as a peer on [sample] would build it. *)
Definition inbound (seqno ackno flags : Z) (payload : list byte)
  : ctcp_segment_t :=
  {| Segment.seqno := htonl sample seqno;
     Segment.ackno := htonl sample ackno;
     Segment.len :=
       wrap16 (htons sample (SEGMENT_SIZE sample
                             + Z.of_nat (length payload)));
     Segment.flags := htonl sample flags;
     Segment.window := 0;
     Segment.cksum := 0;
     Segment.data := payload |}.

(** A bare FIN, a bare ACK and a data segment from the peer. *)
Definition fin_at (seqno : Z) : ctcp_segment_t :=
  inbound seqno 0 (TH_FIN sample) [].
Definition ack_of (ackno : Z) : ctcp_segment_t :=
  inbound 0 ackno (TH_ACK sample) [].
Definition data_at (seqno : Z) (payload : list byte) : ctcp_segment_t :=
  inbound seqno 0 0 payload.

Definition count_end_of_input (evs : list event) : nat :=
  length (filter is_end_of_input evs).

(** A sender with one segment of four bytes in flight: seqno 1, so that
    [seqno] is 5 after the call. *)
Definition one_in_flight : ctcp_state_t :=
  fst (ctcp_read sample 0 [bytes [x61; x62; x63; x64]] (fresh 1 1 200)).

(** The order of the list of unacknowledged segments. *)
Definition seqno_le (P : platform) (a b : ctcp_segment_t) : Prop :=
  ntohl P (Segment.seqno a) <= ntohl P (Segment.seqno b).

(** A datagram: a segment and the number of bytes received for it. *)
Definition datagram : Type := (ctcp_segment_t * Z)%type.

(** The datagrams a trace hands to the network. *)
Definition datagrams (evs : list event) : list datagram :=
  flat_map (fun ev => match ev with
                      | conn_send _ s n => [(s, n)]
                      | _ => []
                      end) evs.

(** The payload bytes of a datagram, as [ctcp_receive] reads them. *)
Definition payload (P : platform) (d : datagram) : list byte :=
  if snd d >? SEGMENT_SIZE P
  then firstn (Z.to_nat (snd d - SEGMENT_SIZE P)) (Segment.data (fst d))
  else [].

Definition carries_fin (P : platform) (d : datagram) : bool :=
  has_flag (ntohl P (Segment.flags (fst d))) (TH_FIN P).

(** [ctcp_receive] called for each arrival in turn, until the connection is
    destroyed. *)
Fixpoint receive_all (P : platform) (state : ctcp_state_t)
         (arrivals : list datagram) : option ctcp_state_t * list event :=
  match arrivals with
  | [] => (Some state, [])
  | (segment, len) :: rest =>
      match ctcp_receive P state segment len with
      | (Some state', evs) =>
          let '(r, evs') := receive_all P state' rest in (r, evs ++ evs')
      | (None, evs) => (None, evs)
      end
  end.

(** The datagrams a sender on [sample] emits for the stream "abcd" read in
    two chunks. *)
Definition abcd_sent : list datagram :=
  datagrams (snd (ctcp_read sample 0 [bytes [x61; x62]; bytes [x63; x64]]
                    (fresh 2 2 200))).

(** A history is a trace whose calls carry the time at which they were
    made.  [last_sent_at history s] is the time of the last [conn_send] of
    the segment [s], the segment's own last transmission. *)
Definition history : Type := list (Z * event).

Definition stamp (now : Z) (evs : list event) : history :=
  map (fun ev => (now, ev)) evs.

Fixpoint last_sent_at (h : history) (s : ctcp_segment_t) : option Z :=
  match h with
  | [] => None
  | (t, ev) :: rest =>
      match last_sent_at rest s with
      | Some t' => Some t'
      | None =>
          match ev with
          | conn_send _ s' _ => if Segment.eq_dec s s' then Some t else None
          | _ => None
          end
      end
  end.

(** A sender on [sample], with a retransmission timeout of 100 ms, that has
    sent "ab" and "cd" as two segments at time 0. *)
Definition two_sent : ctcp_state_t * list event :=
  ctcp_read sample 0 [bytes [x61; x62]; bytes [x63; x64]] (fresh 2 2 100).

Definition two_in_flight : ctcp_state_t := fst two_sent.

(** Successive calls of [ctcp_timer], one per clock reading. *)
Fixpoint ticks (P : platform) (times : list Z)
         (state_list : list ctcp_state_t)
  : sweep (list ctcp_state_t) * list event :=
  match times with
  | [] => (swept state_list, [])
  | now :: later =>
      match ctcp_timer P now state_list with
      | (swept state_list', evs) =>
          let '(r, evs') := ticks P later state_list' in (r, evs ++ evs')
      | (use_after_free, evs) => (use_after_free, evs)
      end
  end.

(** What holds of a segment that [ctcp_read] has put on the list of
    unacknowledged segments: no flag is set and there is payload. *)
Definition queued_data (s : ctcp_segment_t) : Prop :=
  Segment.flags s = 0 /\ Segment.data s <> [].

(** The states a connection can be in: the one [ctcp_init] returns, and
    those a call of an entry point leads to while the connection exists. *)
Inductive reachable (P : platform) : ctcp_state_t -> Prop :=
| reachable_init (c : conn_t) (cfg : ctcp_config_t)
                 (state_list : list ctcp_state_t) (state : ctcp_state_t) :
    fst (ctcp_init P (Some c) cfg state_list) = Some state ->
    reachable P state
| reachable_read (now : Z) (input : list input_result)
                 (state : ctcp_state_t) :
    reachable P state ->
    reachable P (fst (ctcp_read P now input state))
| reachable_receive (segment : ctcp_segment_t) (len : Z)
                    (state state' : ctcp_state_t) :
    reachable P state ->
    fst (ctcp_receive P state segment len) = Some state' ->
    reachable P state'
| reachable_output (state : ctcp_state_t) :
    reachable P state ->
    reachable P (fst (ctcp_output P state))
| reachable_timer (now : Z) (state state' : ctcp_state_t) :
    reachable P state ->
    fst (timer_nodes P now state (segments state)) = swept state' ->
    reachable P state'.

(** ** Measures of a trace *)

(** Sequence numbering: the first datagram has seqno [start] (modulo 2^32)
    and each next one follows the payload of the one before. *)
Fixpoint numbered (P : platform) (start : Z) (ds : list datagram) : Prop :=
  match ds with
  | [] => True
  | (s, n) :: rest =>
      ntohl P (Segment.seqno s) = wrap32 start /\
      numbered P (start + (n - SEGMENT_SIZE P)) rest
  end.

(** The number of payload bytes and of FIN segments handed to the network. *)
Definition payload_bytes (P : platform) (evs : list event) : Z :=
  Z.of_nat (length (flat_map (payload P) (datagrams evs))).

Definition fin_count (P : platform) (evs : list event) : Z :=
  Z.of_nat (length (filter (carries_fin P) (datagrams evs))).

(** The datagrams that carry payload. *)
Definition with_payload (P : platform) (ds : list datagram) : list datagram :=
  filter (fun d => snd d >? SEGMENT_SIZE P) ds.

(** The length [ctcp_output] computes for a segment of the list. *)
Definition output_len (P : platform) (s : ctcp_segment_t) : Z :=
  wrap64 (ntohs P (Segment.len s) - SEGMENT_SIZE P).

(** A list of segments that follow one another from seqno [b]: each has the
    seqno the one before ends at, and a [len] field from which
    [ctcp_output] computes the size of its payload. *)
Fixpoint chained (P : platform) (b : Z) (q : list ctcp_segment_t) : Prop :=
  match q with
  | [] => True
  | s :: rest =>
      ntohl P (Segment.seqno s) = b /\
      output_len P s = Z.of_nat (length (Segment.data s)) /\
      chained P (wrap32 (b + output_len P s)) rest
  end.

Definition is_conn_output (ev : event) : bool :=
  match ev with
  | conn_output _ _ _ => true
  | _ => false
  end.

(** The sample platform on a big-endian host. *)
Definition sample_be : platform :=
  {| little_endian := false;
     SEGMENT_SIZE := SEGMENT_SIZE sample;
     MAX_SEG_DATA_SIZE := MAX_SEG_DATA_SIZE sample;
     MAX_NUM_XMITS := MAX_NUM_XMITS sample;
     TH_ACK := TH_ACK sample;
     TH_FIN := TH_FIN sample |}.

(** ** The links of the list of connections

    [ctcp_init] and [ctcp_destroy] keep the connections in a doubly linked
    list: [next] points to the next state and [prev] to the place that
    holds the pointer to this state, which is the variable [state_list] or
    the [next] field of the state before.  The store below holds these two
    fields for every allocated state. *)
Module Registry.

Definition addr : Type := nat.

(** A [ctcp_state_t **]. *)
Inductive slot : Type :=
| state_list_slot
| next_slot (a : addr).

Record node : Type := mk_node { next : option addr; prev : slot }.

Record t : Type := mk { state_list : option addr;
                        nodes : addr -> option node }.

Definition set_node (a : addr) (v : option node) (r : t) : t :=
  mk (state_list r) (fun x => if Nat.eqb x a then v else nodes r x).

(** [b->prev = s]. *)
Definition set_prev (b : addr) (s : slot) (r : t) : option t :=
  match nodes r b with
  | Some n => Some (set_node b (Some (mk_node (next n) s)) r)
  | None => None
  end.

(** [*s = v]. *)
Definition store (s : slot) (v : option addr) (r : t) : option t :=
  match s with
  | state_list_slot => Some (mk v (nodes r))
  | next_slot x =>
      match nodes r x with
      | Some n => Some (set_node x (Some (mk_node v (prev n))) r)
      | None => None
      end
  end.

(** The four assignments at the end of [ctcp_init], for the state allocated
    at [a].  [None] stands for an access to a state that is not
    allocated. *)
Definition init_link (a : addr) (r : t) : option t :=
  let r1 := set_node a (Some (mk_node (state_list r) state_list_slot)) r in
  match match state_list r1 with
        | Some b => set_prev b (next_slot a) r1
        | None => Some r1
        end with
  | Some r2 => Some (mk (Some a) (nodes r2))
  | None => None
  end.

(** The two assignments at the start of [ctcp_destroy], and its [free]. *)
Definition destroy_unlink (a : addr) (r : t) : option t :=
  match nodes r a with
  | None => None
  | Some n =>
      match match next n with
            | Some b => set_prev b (prev n) r
            | None => Some r
            end with
      | None => None
      | Some r1 =>
          match nodes r1 a with
          | None => None
          | Some n' =>
              match store (prev n') (next n') r1 with
              | Some r2 => Some (set_node a None r2)
              | None => None
              end
          end
      end
  end.

(** The states reached from the pointer [p], stored in the place [from],
    are those of [l], in order. *)
Fixpoint linked (r : t) (from : slot) (p : option addr) (l : list addr)
  : Prop :=
  match l with
  | [] => p = None
  | a :: rest =>
      p = Some a /\
      exists nx,
        nodes r a = Some (mk_node nx from) /\
        linked r (next_slot a) nx rest
  end.

(** The store holds the list [l] of connections. *)
Definition represents (r : t) (l : list addr) : Prop :=
  linked r state_list_slot (state_list r) l /\ NoDup l.

(** The place that holds the pointer to what follows [l]. *)
Fixpoint last_slot (from : slot) (l : list addr) : slot :=
  match l with
  | [] => from
  | x :: rest => last_slot (next_slot x) rest
  end.

(** No connection. *)
Definition empty : t := mk None (fun _ => None).

End Registry.

(** The links after connections 7 and then 8 have been created. *)
Definition two_connections : Registry.t :=
  match Registry.init_link 7%nat Registry.empty with
  | Some r =>
      match Registry.init_link 8%nat r with
      | Some r' => r'
      | None => Registry.empty
      end
  | None => Registry.empty
  end.

(** The list of unacknowledged segments is in order when the seqnos
    increase along it and stay below the [seqno] of the state. *)
Definition seqno_lt (P : platform) (a b : ctcp_segment_t) : Prop :=
  ntohl P (Segment.seqno a) < ntohl P (Segment.seqno b).

Definition in_order (P : platform) (state : ctcp_state_t) : Prop :=
  StronglySorted (seqno_lt P) (segments state) /\
  Forall (fun s => ntohl P (Segment.seqno s) < seqno state)
         (segments state).

(** A segment in which neither a checksum nor a window has been set. *)
Definition bare (s : ctcp_segment_t) : Prop :=
  Segment.cksum s = 0 /\ Segment.window s = 0.

(** Case analysis on the comparisons of addresses. *)
Ltac registry_eqb :=
  repeat match goal with
         | |- context [Nat.eqb ?x ?y] => destruct (Nat.eqb_spec x y)
         | H : context [Nat.eqb ?x ?y] |- _ => destruct (Nat.eqb_spec x y)
         end;
  subst; try congruence.

(** ** What the receiver path reads from a datagram

    The header words [ctcp_receive] converts with [ntohl], and the payload
    it hands to the sink. *)
Record header_view : Type := mkView {
  view_seqno : Z;
  view_ackno : Z;
  view_flags : Z;
  view_payload : list byte
}.

Definition received (P : platform) (d : datagram) : header_view :=
  {| view_seqno := ntohl P (Segment.seqno (fst d));
     view_ackno := ntohl P (Segment.ackno (fst d));
     view_flags := ntohl P (Segment.flags (fst d));
     view_payload := payload P d |}.

(** The segments [removed] were taken one after the other by the loop of
    [ctcp_output]: each had the seqno [recv_base] stood at, from [b] on,
    and moved it by the length computed for it; [e] is where [recv_base]
    ends. *)
Fixpoint taken_in_turn (P : platform) (b : Z)
         (removed : list ctcp_segment_t) (e : Z) : Prop :=
  match removed with
  | [] => e = b
  | s :: rest =>
      ntohl P (Segment.seqno s) = b /\
      taken_in_turn P (wrap32 (b + output_len P s)) rest e
  end.

(** ** The sweep with a running clock

    [ctcp_timer] reads [current_time_ms] for the test of each node and once
    more for each retransmission.  Below, [clock k] is the [k]-th reading
    made during the call, and the loops return the number of readings made
    so far.  [timer_visit], [timer_nodes] and [ctcp_timer] above are these
    loops for a clock that stands still during the call. *)
Definition timer_visit_clock (P : platform) (clock : nat -> Z) (k : nat)
           (state : ctcp_state_t) (segment : ctcp_segment_t)
  : ctcp_state_t * list event * bool * nat :=
  if clock k - last_sent_time state >? rt_timeout state then
    let sent :=
      conn_send (conn state) segment (ntohs P (Segment.len segment)) in
    let state' :=
      set_last_sent_time (clock (S k))
        (set_retransmit_count (retransmit_count state + 1) state) in
    if retransmit_count state' >=? MAX_NUM_XMITS P
    then (state', sent :: ctcp_destroy state', true, S (S k))
    else (state', [sent], false, S (S k))
  else (state, [], false, S k).

Fixpoint timer_nodes_clock (P : platform) (clock : nat -> Z) (k : nat)
         (state : ctcp_state_t) (nodes : list ctcp_segment_t)
  : sweep (ctcp_state_t * nat) * list event :=
  match nodes with
  | [] => (swept (state, k), [])
  | segment :: next =>
      match timer_visit_clock P clock k state segment with
      | (_, evs, true, _) => (use_after_free, evs)
      | (state', evs, false, k') =>
          let '(r, evs') := timer_nodes_clock P clock k' state' next in
          (r, evs ++ evs')
      end
  end.

Fixpoint ctcp_timer_clock (P : platform) (clock : nat -> Z) (k : nat)
         (state_list : list ctcp_state_t)
  : sweep (list ctcp_state_t * nat) * list event :=
  match state_list with
  | [] => (swept ([], k), [])
  | state :: next =>
      match timer_nodes_clock P clock k state (segments state) with
      | (swept (state', k'), evs) =>
          let '(r, evs') := ctcp_timer_clock P clock k' next in
          (match r with
           | swept (next', k'') => swept (state' :: next', k'')
           | use_after_free => use_after_free
           end, evs ++ evs')
      | (use_after_free, evs) => (use_after_free, evs)
      end
  end.

Definition sweep_map {A B : Type} (f : A -> B) (r : sweep A) : sweep B :=
  match r with
  | swept a => swept (f a)
  | use_after_free => use_after_free
  end.

(** A clock that starts at [t0], gains a millisecond at each of its first
    three readings and then stands still. *)
Definition drifting (t0 : Z) : nat -> Z :=
  fun k => t0 + Z.of_nat (Nat.min k 3).


(** The links after connection 7 has been created. *)
Definition one_connection : Registry.t :=
  match Registry.init_link 7%nat Registry.empty with
  | Some r => r
  | None => Registry.empty
  end.

(** ** Byte order facts *)

Lemma bswap32_range (x : Z) : 0 <= bswap32 x < 2 ^ 32.
Proof.
  unfold bswap32.
  pose proof (Z.mod_pos_bound x 256 ltac:(lia)).
  pose proof (Z.mod_pos_bound (x / 2 ^ 8) 256 ltac:(lia)).
  pose proof (Z.mod_pos_bound (x / 2 ^ 16) 256 ltac:(lia)).
  pose proof (Z.mod_pos_bound (x / 2 ^ 24) 256 ltac:(lia)).
  lia.
Qed.

Lemma of_bytes4_split (b0 b1 b2 b3 : Z) :
  0 <= b0 < 256 -> 0 <= b1 < 256 -> 0 <= b2 < 256 -> 0 <= b3 < 256 ->
  let x := of_bytes4 b0 b1 b2 b3 in
  x mod 256 = b0 /\ (x / 2 ^ 8) mod 256 = b1 /\
  (x / 2 ^ 16) mod 256 = b2 /\ (x / 2 ^ 24) mod 256 = b3.
Proof.
  intros H0 H1 H2 H3 x. unfold of_bytes4 in x.
  assert (E8 : x / 2 ^ 8 = b1 + 256 * b2 + 65536 * b3).
  { symmetry. apply Z.div_unique with (r := b0); subst x; lia. }
  assert (E16 : x / 2 ^ 16 = b2 + 256 * b3).
  { symmetry. apply Z.div_unique with (r := b0 + 256 * b1); subst x; lia. }
  assert (E24 : x / 2 ^ 24 = b3).
  { symmetry.
    apply Z.div_unique with (r := b0 + 256 * b1 + 65536 * b2); subst x; lia. }
  rewrite E8, E16, E24. repeat split.
  - symmetry. apply Z.mod_unique with (q := b1 + 256 * b2 + 65536 * b3);
      subst x; lia.
  - symmetry. apply Z.mod_unique with (q := b2 + 256 * b3); lia.
  - symmetry. apply Z.mod_unique with (q := b3); lia.
  - apply Z.mod_small; lia.
Qed.

Lemma of_bytes4_join (x : Z) :
  0 <= x < 2 ^ 32 ->
  x = of_bytes4 (x mod 256) ((x / 2 ^ 8) mod 256)
                ((x / 2 ^ 16) mod 256) ((x / 2 ^ 24) mod 256).
Proof.
  intros Hx. unfold of_bytes4.
  assert (E16 : x / 2 ^ 16 = x / 2 ^ 8 / 256).
  { rewrite Z.div_div by lia. reflexivity. }
  assert (E24 : x / 2 ^ 24 = x / 2 ^ 16 / 256).
  { rewrite Z.div_div by lia. reflexivity. }
  assert (S24 : (x / 2 ^ 24) mod 256 = x / 2 ^ 24).
  { apply Z.mod_small. split.
    - apply Z.div_pos; lia.
    - apply Z.div_lt_upper_bound; lia. }
  pose proof (Z.div_mod x 256 ltac:(lia)) as D0.
  pose proof (Z.div_mod (x / 2 ^ 8) 256 ltac:(lia)) as D1.
  pose proof (Z.div_mod (x / 2 ^ 16) 256 ltac:(lia)) as D2.
  change (2 ^ 8) with 256 in *. lia.
Qed.

Lemma bswap32_involutive (x : Z) :
  0 <= x < 2 ^ 32 -> bswap32 (bswap32 x) = x.
Proof.
  intros Hx.
  pose proof (Z.mod_pos_bound x 256 ltac:(lia)) as B0.
  pose proof (Z.mod_pos_bound (x / 2 ^ 8) 256 ltac:(lia)) as B1.
  pose proof (Z.mod_pos_bound (x / 2 ^ 16) 256 ltac:(lia)) as B2.
  pose proof (Z.mod_pos_bound (x / 2 ^ 24) 256 ltac:(lia)) as B3.
  assert (E : bswap32 x =
              of_bytes4 ((x / 2 ^ 24) mod 256) ((x / 2 ^ 16) mod 256)
                        ((x / 2 ^ 8) mod 256) (x mod 256)).
  { unfold bswap32, of_bytes4. lia. }
  destruct (of_bytes4_split _ _ _ _ B3 B2 B1 B0) as (S0 & S1 & S2 & S3).
  rewrite <- E in S0, S1, S2, S3.
  unfold bswap32 at 1. rewrite S0, S1, S2, S3.
  rewrite (of_bytes4_join x Hx) at 5. unfold of_bytes4. lia.
Qed.

Lemma gtb_true (n m : Z) : m < n -> (n >? m) = true.
Proof. intros. apply Z.gtb_lt. assumption. Qed.

Lemma gtb_false (n m : Z) : n <= m -> (n >? m) = false.
Proof. intros. rewrite Z.gtb_ltb. apply Z.ltb_ge. assumption. Qed.

Lemma wrap32_range (x : Z) : 0 <= wrap32 x < 2 ^ 32.
Proof. unfold wrap32. apply Z.mod_pos_bound. lia. Qed.

Lemma wrap32_small (x : Z) : 0 <= x < 2 ^ 32 -> wrap32 x = x.
Proof. intros. unfold wrap32. apply Z.mod_small. assumption. Qed.

Lemma htonl_range (P : platform) (x : Z) : 0 <= htonl P x < 2 ^ 32.
Proof.
  unfold htonl. destruct (little_endian P).
  - apply bswap32_range.
  - apply wrap32_range.
Qed.

(** Converting to network order and back gives the 32-bit value. *)
Lemma ntohl_htonl (P : platform) (x : Z) : ntohl P (htonl P x) = wrap32 x.
Proof.
  unfold ntohl, htonl. destruct (little_endian P).
  - rewrite (wrap32_small (bswap32 _)) by apply bswap32_range.
    apply bswap32_involutive, wrap32_range.
  - apply wrap32_small, wrap32_range.
Qed.

Lemma ntohl_0 (P : platform) : ntohl P 0 = 0.
Proof. unfold ntohl, htonl. destruct (little_endian P); reflexivity. Qed.

(** ** Connection creation *)

(** [fresh] is the state that [ctcp_init] creates. *)
Lemma fresh_is_init (send recv rt : Z) :
  ctcp_init sample (Some 0%nat) (sample_config send recv rt) []
  = (Some (fresh send recv rt), [fresh send recv rt]).
Proof. reflexivity. Qed.

(** C9, as the code has it: [ctcp_init] fails for a null [conn] only.  For
    every configuration, a zero window included, it creates the connection,
    links it at the head of [state_list] and stores the windows in bytes. *)
Theorem C9_init_accepts_every_config
        (P : platform) (c : conn_t) (cfg : ctcp_config_t)
        (state_list : list ctcp_state_t) :
  ctcp_init P None cfg state_list = (None, state_list) /\
  exists state,
    ctcp_init P (Some c) cfg state_list = (Some state, state :: state_list) /\
    conn state = c /\
    send_window state = wrap32 (cfg_send_window cfg * MAX_SEG_DATA_SIZE P) /\
    recv_window state = wrap32 (cfg_recv_window cfg * MAX_SEG_DATA_SIZE P) /\
    rt_timeout state = cfg_rt_timeout cfg /\
    seqno state = 1 /\ send_base state = 1 /\ recv_base state = 1 /\
    segments state = [].
Proof.
  split; [reflexivity|].
  eexists. split; [reflexivity|]. cbn. repeat split; reflexivity.
Qed.

(** C9 fails as stated: a configuration with zero send and receive windows
    is accepted, and the connection it creates has windows of zero bytes. *)
Lemma C9_zero_window_accepted :
  ctcp_init sample (Some 0%nat) (sample_config 0 0 200) []
  = (Some (fresh 0 0 200), [fresh 0 0 200]) /\
  send_window (fresh 0 0 200) = 0 /\ recv_window (fresh 0 0 200) = 0.
Proof. repeat split; reflexivity. Qed.

(** ** Receiver path *)

Lemma conn_receive_ack (P : platform) (state : ctcp_state_t)
      (segment : ctcp_segment_t) :
  conn (receive_ack P state segment) = conn state.
Proof.
  unfold receive_ack.
  destruct (has_flag _ _); [|reflexivity].
  destruct (_ >? _); reflexivity.
Qed.

Lemma recv_base_receive_ack (P : platform) (state : ctcp_state_t)
      (segment : ctcp_segment_t) :
  recv_base (receive_ack P state segment) = recv_base state.
Proof.
  unfold receive_ack.
  destruct (has_flag _ _); [|reflexivity].
  destruct (_ >? _); reflexivity.
Qed.

Lemma receive_data_no_end_of_input (P : platform) (state : ctcp_state_t)
      (segment : ctcp_segment_t) (len : Z) :
  count_end_of_input (receive_data P state segment len) = 0%nat.
Proof.
  unfold receive_data, count_end_of_input.
  destruct (len >? SEGMENT_SIZE P) eqn:Hlen; [|reflexivity].
  apply Z.gtb_lt in Hlen. cbn.
  destruct (len - SEGMENT_SIZE P =? 0) eqn:E; [|reflexivity].
  apply Z.eqb_eq in E. lia.
Qed.

Lemma count_end_of_input_app (evs evs' : list event) :
  count_end_of_input (evs ++ evs')
  = (count_end_of_input evs + count_end_of_input evs')%nat.
Proof.
  unfold count_end_of_input. rewrite filter_app. apply length_app.
Qed.

(** C5, as the code has it: every inbound segment with the FIN flag set,
    whatever its seqno and whatever the local state, makes the receiver path
    signal end-of-input exactly once and then destroy the connection. *)
Theorem C5_fin_signals_once_and_destroys
        (P : platform) (state : ctcp_state_t) (segment : ctcp_segment_t)
        (len : Z) :
  has_flag (ntohl P (Segment.flags segment)) (TH_FIN P) = true ->
  exists evs,
    ctcp_receive P state segment len
    = (None, evs ++ [end_of_input_signal (conn state);
                     conn_remove (conn state)]) /\
    count_end_of_input evs = 0%nat /\
    count_end_of_input (snd (ctcp_receive P state segment len)) = 1%nat.
Proof.
  intros Hfin. unfold ctcp_receive. rewrite Hfin.
  exists (receive_data P (receive_ack P state segment) segment len).
  unfold ctcp_destroy. rewrite conn_receive_ack.
  pose proof (receive_data_no_end_of_input P (receive_ack P state segment)
                segment len) as H0.
  repeat split; [assumption|].
  cbn [snd]. rewrite count_end_of_input_app, H0. reflexivity.
Qed.

Lemma C5_fin_signals_once_and_destroys_witness :
  exists evs,
    ctcp_receive sample (fresh 1 1 200) (fin_at 1) (SEGMENT_SIZE sample)
    = (None, evs ++ [end_of_input_signal 0%nat; conn_remove 0%nat]) /\
    count_end_of_input evs = 0%nat /\
    count_end_of_input
      (snd (ctcp_receive sample (fresh 1 1 200) (fin_at 1) (SEGMENT_SIZE sample)))
    = 1%nat.
Proof.
  apply (C5_fin_signals_once_and_destroys sample (fresh 1 1 200)
           (fin_at 1) (SEGMENT_SIZE sample)).
  reflexivity.
Defined.

(** C5 fails as stated: on a fresh connection, which expects seqno 1 and has
    sent no FIN of its own, a FIN with seqno 77 is acted upon and the
    connection is destroyed. *)
Lemma C5_out_of_order_fin_destroys :
  ntohl sample (Segment.seqno (fin_at 77)) = 77 /\
  recv_base (fresh 1 1 200) = 1 /\
  seqno (fresh 1 1 200) = 1 /\
  ctcp_receive sample (fresh 1 1 200) (fin_at 77) (SEGMENT_SIZE sample)
  = (None, [end_of_input_signal 0%nat; conn_remove 0%nat]).
Proof. repeat split; reflexivity. Qed.




(** ** Acknowledgments *)

Lemma remove_acked_split (P : platform) (ackno : Z)
      (queue : list ctcp_segment_t) :
  exists removed,
    queue = removed ++ remove_acked P ackno queue /\
    Forall (fun s => ntohl P (Segment.seqno s) < ackno) removed /\
    match remove_acked P ackno queue with
    | [] => True
    | first :: _ => ackno <= ntohl P (Segment.seqno first)
    end.
Proof.
  induction queue as [|first rest IH]; cbn [remove_acked].
  - exists []. repeat split. constructor.
  - destruct (ntohl P (Segment.seqno first) <? ackno) eqn:E.
    + destruct IH as (removed & Hq & Hall & Hhd).
      exists (first :: removed). repeat split.
      * cbn. f_equal. exact Hq.
      * constructor; [apply Z.ltb_lt; exact E | exact Hall].
      * exact Hhd.
    + exists []. repeat split; [constructor|].
      apply Z.ltb_ge. exact E.
Qed.

Lemma remove_acked_sorted (P : platform) (ackno : Z)
      (queue : list ctcp_segment_t) :
  StronglySorted (seqno_le P) queue ->
  Forall (fun s => ackno <= ntohl P (Segment.seqno s))
         (remove_acked P ackno queue).
Proof.
  induction 1 as [|first rest Hsorted IH Hfirst]; cbn [remove_acked].
  - constructor.
  - destruct (ntohl P (Segment.seqno first) <? ackno) eqn:E; [exact IH|].
    apply Z.ltb_ge in E. constructor; [exact E|].
    eapply Forall_impl; [|exact Hfirst].
    unfold seqno_le. intros s Hs. lia.
Qed.

(** What the loop of the ACK block does: an inbound segment with the ACK
    flag and
    ackno > send_base advances send_base to ackno and removes, from the front
    of the list of unacknowledged segments, the segments whose seqno is
    below ackno, up to the first one whose seqno is not; the payload length
    plays no part.  Afterwards the list is empty or starts with a segment
    of seqno >= ackno, and when the list was ordered by seqno every segment
    left has seqno >= ackno. *)
Theorem receive_ack_removes_by_seqno
        (P : platform) (state : ctcp_state_t) (segment : ctcp_segment_t)
        (len : Z) :
  has_flag (ntohl P (Segment.flags segment)) (TH_ACK P) = true ->
  has_flag (ntohl P (Segment.flags segment)) (TH_FIN P) = false ->
  ntohl P (Segment.ackno segment) > send_base state ->
  let ackno := ntohl P (Segment.ackno segment) in
  exists state' removed,
    fst (ctcp_receive P state segment len) = Some state' /\
    send_base state' = ackno /\
    segments state = removed ++ segments state' /\
    Forall (fun s => ntohl P (Segment.seqno s) < ackno) removed /\
    match segments state' with
    | [] => True
    | first :: _ => ackno <= ntohl P (Segment.seqno first)
    end /\
    (StronglySorted (seqno_le P) (segments state) ->
     Forall (fun s => ackno <= ntohl P (Segment.seqno s)) (segments state')).
Proof.
  intros Hack Hfin Hgt ackno.
  destruct (remove_acked_split P ackno (segments state))
    as (removed & Hq & Hall & Hhd).
  exists (receive_ack P state segment), removed.
  assert (E : receive_ack P state segment
              = set_segments (remove_acked P ackno (segments state))
                  (set_send_base ackno state)).
  { unfold receive_ack. rewrite Hack.
    replace (ntohl P (Segment.ackno segment) >? send_base state) with true
      by (symmetry; apply gtb_true; lia).
    reflexivity. }
  unfold ctcp_receive. rewrite Hfin, E. cbn.
  repeat split; try assumption.
  apply remove_acked_sorted.
Qed.

Lemma receive_ack_removes_by_seqno_witness :
  exists state' removed,
    fst (ctcp_receive sample one_in_flight (ack_of 5) (SEGMENT_SIZE sample))
    = Some state' /\
    send_base state' = ntohl sample (Segment.ackno (ack_of 5)) /\
    segments one_in_flight = removed ++ segments state' /\
    Forall (fun s => ntohl sample (Segment.seqno s)
                     < ntohl sample (Segment.ackno (ack_of 5)))
           removed /\
    match segments state' with
    | [] => True
    | first :: _ =>
        ntohl sample (Segment.ackno (ack_of 5))
        <= ntohl sample (Segment.seqno first)
    end /\
    (StronglySorted (seqno_le sample) (segments one_in_flight) ->
     Forall (fun s => ntohl sample (Segment.ackno (ack_of 5))
                      <= ntohl sample (Segment.seqno s))
            (segments state')).
Proof.
  apply (receive_ack_removes_by_seqno sample one_in_flight
           (ack_of 5) (SEGMENT_SIZE sample)).
  - reflexivity.
  - reflexivity.
  - vm_compute. reflexivity.
Defined.

(** C3 at a failing run: with one segment in flight that covers bytes 1 to
    4, an ACK with ackno 3 covers it only in part, yet the segment is
    removed: the list of unacknowledged segments is left empty while
    [send_base] is 3 and [seqno] is 5, so that bytes 3 and 4 are neither
    acknowledged nor kept for retransmission. *)
Lemma C3_partial_ack_removes_segment :
  exists seg state',
    segments one_in_flight = [seg] /\
    ntohl sample (Segment.seqno seg) = 1 /\
    length (Segment.data seg) = 4%nat /\
    1 + 4 > 3 /\
    ctcp_receive sample one_in_flight (ack_of 3) (SEGMENT_SIZE sample)
    = (Some state', []) /\
    send_base state' = 3 /\
    seqno state' = 5 /\
    segments state' = [].
Proof. do 2 eexists. repeat split; try reflexivity. Qed.

(** ** Delivery to the application *)

Lemma sink_bytes_app (evs evs' : list event) :
  sink_bytes (evs ++ evs') = sink_bytes evs ++ sink_bytes evs'.
Proof. unfold sink_bytes. apply flat_map_app. Qed.

(** Whatever its seqno, a segment has its payload written to the sink by the
    call that receives it. *)
Lemma ctcp_receive_delivers (P : platform) (state : ctcp_state_t)
      (segment : ctcp_segment_t) (len : Z) :
  carries_fin P (segment, len) = false ->
  fst (ctcp_receive P state segment len)
  = Some (receive_ack P state segment) /\
  sink_bytes (snd (ctcp_receive P state segment len))
  = payload P (segment, len).
Proof.
  unfold carries_fin, ctcp_receive, payload, receive_data. cbn [fst snd].
  intros ->. cbn [fst snd]. split; [reflexivity|].
  destruct (len >? SEGMENT_SIZE P); [|reflexivity].
  cbn. apply app_nil_r.
Qed.

(** [ctcp_receive] on its own writes the payload of every arriving segment
    to the sink at once, whatever its seqno, and leaves [recv_base] as it
    is: the bytes it writes to the sink are the payloads in arrival
    order. *)
Theorem receive_all_delivers_in_arrival_order
        (P : platform) (arrivals : list datagram) (state : ctcp_state_t) :
  Forall (fun d => carries_fin P d = false) arrivals ->
  exists state',
    fst (receive_all P state arrivals) = Some state' /\
    recv_base state' = recv_base state /\
    sink_bytes (snd (receive_all P state arrivals))
    = flat_map (payload P) arrivals.
Proof.
  intros Hall. revert state.
  induction Hall as [|[segment len] rest Hfin Hrest IH]; intros state.
  - exists state. repeat split.
  - destruct (ctcp_receive_delivers P state segment len Hfin) as [Hst Hsink].
    cbn [receive_all flat_map].
    destruct (ctcp_receive P state segment len) as [[st1|] evs];
      cbn [fst snd] in Hst, Hsink; [|discriminate].
    injection Hst as ->.
    destruct (IH (receive_ack P state segment)) as (state' & E & Hbase & Hs).
    destruct (receive_all P (receive_ack P state segment) rest) as [r evs'].
    cbn [fst snd] in *.
    exists state'. repeat split.
    + exact E.
    + rewrite Hbase. apply recv_base_receive_ack.
    + rewrite sink_bytes_app, Hsink, Hs. reflexivity.
Qed.

Lemma receive_all_delivers_in_arrival_order_witness :
  exists state',
    fst (receive_all sample (fresh 2 2 200) abcd_sent) = Some state' /\
    recv_base state' = recv_base (fresh 2 2 200) /\
    sink_bytes (snd (receive_all sample (fresh 2 2 200) abcd_sent))
    = flat_map (payload sample) abcd_sent.
Proof.
  apply (receive_all_delivers_in_arrival_order sample abcd_sent (fresh 2 2 200)).
  repeat constructor.
Defined.

(** C1 at a failing run: the stream "abcd" is sent as two segments; when the
    second arrives first the sink is given "cdab", and when the first
    arrives twice the sink is given "ababcd". *)
Lemma C1_reordering_and_duplication_reach_sink :
  exists A B,
    abcd_sent = [A; B] /\
    flat_map (payload sample) [A; B] = [x61; x62; x63; x64] /\
    sink_bytes (snd (receive_all sample (fresh 2 2 200) [B; A]))
    = [x63; x64; x61; x62] /\
    sink_bytes (snd (receive_all sample (fresh 2 2 200) [A; A; B]))
    = [x61; x62; x61; x62; x63; x64] /\
    sink_bytes (snd (receive_all sample (fresh 2 2 200) [B; A]))
    <> flat_map (payload sample) [A; B] /\
    sink_bytes (snd (receive_all sample (fresh 2 2 200) [A; A; B]))
    <> flat_map (payload sample) [A; B].
Proof.
  do 2 eexists.
  split; [reflexivity|].
  repeat split; try reflexivity; vm_compute; discriminate.
Qed.

(** ** Framing *)

Lemma has_flag_0 (bit : Z) : has_flag 0 bit = false.
Proof. reflexivity. Qed.

(** The seqno and the payload the sender path writes into a data segment
    are read back unchanged by the receiver path, which hands the payload
    to the sink; no buffer is rejected: the checksum field is not examined,
    and a buffer shorter than the header is handled like a bare header, its
    ACK and FIN flags being acted upon. *)
Theorem receive_path_validates_nothing
        (P : platform) (sender receiver : ctcp_state_t)
        (buffer : list byte) (segment : ctcp_segment_t) (len cksum : Z) :
  let sent := data_segment P sender buffer in
  let n := SEGMENT_SIZE P + Z.of_nat (length buffer) in
  (ntohl P (Segment.seqno sent) = wrap32 (seqno sender) /\
   sink_bytes (snd (ctcp_receive P receiver sent n)) = buffer) /\
  ctcp_receive P receiver (Segment.set_cksum cksum segment) len
  = ctcp_receive P receiver segment len /\
  ctcp_receive P receiver segment (Z.min len (SEGMENT_SIZE P))
  = ctcp_receive P receiver segment (SEGMENT_SIZE P).
Proof.
  cbv zeta. repeat split.
  - cbn. apply ntohl_htonl.
  - unfold ctcp_receive, receive_data. cbn [Segment.flags data_segment
      Segment.set_data Segment.set_len Segment.set_seqno Segment.zero].
    rewrite ntohl_0, has_flag_0. cbn [snd].
    destruct (length buffer) as [|k] eqn:Hlen.
    + apply length_zero_iff_nil in Hlen. subst buffer.
      replace (SEGMENT_SIZE P + Z.of_nat 0 >? SEGMENT_SIZE P) with false
        by (symmetry; apply gtb_false; lia).
      reflexivity.
    + replace (SEGMENT_SIZE P + Z.of_nat (S k) >? SEGMENT_SIZE P) with true
        by (symmetry; apply gtb_true; lia).
      cbn [sink_bytes flat_map Segment.data]. rewrite !app_nil_r.
      replace (Z.to_nat (SEGMENT_SIZE P + Z.of_nat (S k) - SEGMENT_SIZE P))
        with (length buffer) by lia.
      apply firstn_all.
  - unfold ctcp_receive, receive_data.
    replace (SEGMENT_SIZE P >? SEGMENT_SIZE P) with false
      by (symmetry; apply gtb_false; lia).
    replace (Z.min len (SEGMENT_SIZE P) >? SEGMENT_SIZE P) with false
      by (symmetry; apply gtb_false; lia).
    reflexivity.
Qed.

(** C7 fails as stated, in its second half: a buffer of 14 bytes, shorter than the 18-byte
    header, that carries the FIN flag is not dropped: end-of-input is
    signalled and the connection destroyed; and a segment is delivered to
    the sink whatever its checksum field holds. *)
Lemma C7_short_and_corrupt_buffers_processed :
  SEGMENT_SIZE sample - 4 < SEGMENT_SIZE sample /\
  ctcp_receive sample (fresh 1 1 200) (fin_at 1)
      (SEGMENT_SIZE sample - 4)
  = (None, [end_of_input_signal 0%nat; conn_remove 0%nat]) /\
  forall cksum,
    sink_bytes
      (snd (ctcp_receive sample (fresh 1 1 200)
              (Segment.set_cksum cksum (data_at 1 [x68; x69])) 20))
    = [x68; x69].
Proof. repeat split. Qed.

(** ** Retransmission *)

Lemma timer_nodes_app (P : platform) (now : Z) (before after :
      list ctcp_segment_t) (state state1 : ctcp_state_t)
      (evs1 : list event) :
  timer_nodes P now state before = (swept state1, evs1) ->
  timer_nodes P now state (before ++ after)
  = (fst (timer_nodes P now state1 after),
     evs1 ++ snd (timer_nodes P now state1 after)).
Proof.
  revert state evs1.
  induction before as [|seg before IH]; intros state evs1 H.
  - cbn in H. injection H as H1 H2. subst. cbn.
    destruct (timer_nodes P now state1 after); reflexivity.
  - cbn [timer_nodes app] in *.
    destruct (timer_visit P now state seg) as [[st evs] [|]];
      [discriminate|].
    destruct (timer_nodes P now st before) as [r evs'] eqn:E.
    injection H as H1 H2. subst.
    rewrite (IH st evs' E). cbn [fst snd].
    rewrite app_assoc. reflexivity.
Qed.

(** C6, as the code has it: the sweep compares [now] with the one
    [last_sent_time] of the connection, as it stands when the segment is
    visited.  The segment is retransmitted if and only if
    [now - last_sent_time > rt_timeout]; the retransmission sets the
    connection's [last_sent_time] to [now] and increments the connection's
    [retransmit_count]; otherwise the visit changes nothing. *)
Theorem C6_retransmission_uses_connection_clock
        (P : platform) (now : Z) (state state1 : ctcp_state_t)
        (before after : list ctcp_segment_t) (segment : ctcp_segment_t)
        (evs1 : list event) :
  timer_nodes P now state before = (swept state1, evs1) ->
  let visit := timer_visit P now state1 segment in
  let state2 := fst (fst visit) in
  let sent := conn_send (conn state1) segment
                (ntohs P (Segment.len segment)) in
  (exists r evs2,
      timer_nodes P now state (before ++ segment :: after)
      = (r, evs1 ++ snd (fst visit) ++ evs2)) /\
  (In sent (snd (fst visit))
   <-> now - last_sent_time state1 > rt_timeout state1) /\
  (now - last_sent_time state1 > rt_timeout state1 ->
   last_sent_time state2 = now /\
   retransmit_count state2 = retransmit_count state1 + 1 /\
   segments state2 = segments state1) /\
  (now - last_sent_time state1 <= rt_timeout state1 ->
   visit = (state1, [], false)).
Proof.
  intros Hbefore visit state2 sent. subst visit state2 sent.
  split; [|unfold timer_visit;
           destruct (now - last_sent_time state1 >? rt_timeout state1) eqn:E].
  - rewrite (timer_nodes_app P now before (segment :: after) state state1
               evs1 Hbefore).
    cbn [timer_nodes].
    destruct (timer_visit P now state1 segment) as [[st evs] [|]];
      cbn [fst snd].
    + exists use_after_free, []. rewrite app_nil_r. reflexivity.
    + destruct (timer_nodes P now st after) as [r evs'].
      exists r, evs'. reflexivity.
  - apply Z.gtb_lt in E.
    destruct (_ >=? MAX_NUM_XMITS P); cbn [fst snd];
      (split; [split; [lia | intros _; left; reflexivity]|]);
      (split; [intros _; repeat split | lia]).
  - rewrite Z.gtb_ltb in E. apply Z.ltb_ge in E. cbn [fst snd].
    split; [split; [intros [] | lia]|].
    split; [lia | reflexivity].
Qed.

Lemma C6_retransmission_uses_connection_clock_witness :
  let segment := data_segment sample (fresh 2 2 100) [x61; x62] in
  let visit := timer_visit sample 150 two_in_flight segment in
  (exists r evs2,
      timer_nodes sample 150 two_in_flight ([] ++ segment :: [])
      = (r, [] ++ snd (fst visit) ++ evs2)) /\
  (In (conn_send (conn two_in_flight) segment
         (ntohs sample (Segment.len segment)))
      (snd (fst visit))
   <-> 150 - last_sent_time two_in_flight > rt_timeout two_in_flight) /\
  (150 - last_sent_time two_in_flight > rt_timeout two_in_flight ->
   last_sent_time (fst (fst visit)) = 150 /\
   retransmit_count (fst (fst visit)) = retransmit_count two_in_flight + 1 /\
   segments (fst (fst visit)) = segments two_in_flight) /\
  (150 - last_sent_time two_in_flight <= rt_timeout two_in_flight ->
   visit = (two_in_flight, [], false)).
Proof.
  apply (C6_retransmission_uses_connection_clock sample 150 two_in_flight
           two_in_flight [] []
           (data_segment sample (fresh 2 2 100) [x61; x62]) []).
  reflexivity.
Defined.

(** C6 fails as stated: two segments are sent at time 0 with a timeout of
    100 ms.  At the tick of time 150 both have been unacknowledged for 150 ms,
    yet only the first is retransmitted: its retransmission sets the
    connection's [last_sent_time] to 150, and the second is then compared
    with that. *)
Lemma C6_due_segment_not_retransmitted :
  exists A B n state',
    segments two_in_flight = [A; B] /\
    last_sent_at (stamp 0 (snd two_sent)) B = Some 0 /\
    150 - 0 > rt_timeout two_in_flight /\
    ctcp_timer sample 150 [two_in_flight]
    = (swept [state'], [conn_send 0%nat A n]) /\
    A <> B /\
    last_sent_time state' = 150 /\
    retransmit_count state' = 1.
Proof.
  do 4 eexists.
  split; [reflexivity|]. split; [reflexivity|]. split; [reflexivity|].
  split; [reflexivity|]. split; [discriminate|]. split; reflexivity.
Qed.

(** The sweep never signals end-of-input to the sink. *)
Lemma timer_nodes_no_end_of_input (P : platform) (now : Z)
      (nodes : list ctcp_segment_t) (state : ctcp_state_t) :
  count_end_of_input (snd (timer_nodes P now state nodes)) = 0%nat.
Proof.
  revert state. induction nodes as [|seg nodes IH]; intros state.
  - reflexivity.
  - cbn [timer_nodes]. unfold timer_visit.
    destruct (now - last_sent_time state >? rt_timeout state).
    + destruct (_ >=? MAX_NUM_XMITS P); [reflexivity|].
      match goal with
      | |- context [timer_nodes P now ?s nodes] =>
          specialize (IH s); destruct (timer_nodes P now s nodes)
      end.
      cbn [snd] in *. rewrite count_end_of_input_app, IH. reflexivity.
    + specialize (IH state). destruct (timer_nodes P now state nodes).
      exact IH.
Qed.

(** Whenever the sweep destroys a connection it goes on reading the
    released list. *)
Lemma timer_nodes_destroy_inside_loop (P : platform) (now : Z)
      (nodes : list ctcp_segment_t) (state : ctcp_state_t) :
  In (conn_remove (conn state)) (snd (timer_nodes P now state nodes)) ->
  fst (timer_nodes P now state nodes) = use_after_free.
Proof.
  revert state. induction nodes as [|seg nodes IH]; intros state.
  - intros [].
  - cbn [timer_nodes]. unfold timer_visit.
    destruct (now - last_sent_time state >? rt_timeout state).
    + destruct (_ >=? MAX_NUM_XMITS P); [reflexivity|].
      match goal with
      | |- context [timer_nodes P now ?s nodes] =>
          specialize (IH s); destruct (timer_nodes P now s nodes)
      end.
      cbn [fst snd conn] in *. intros [H|H]; [discriminate|]. auto.
    + specialize (IH state). destruct (timer_nodes P now state nodes).
      exact IH.
Qed.

(** C4 at a failing run: two segments are sent at time 0 and never
    acknowledged.  Five ticks retransmit the first one; at the sixth the
    count reaches [MAX_NUM_XMITS = 6] and [ctcp_destroy] is called from
    inside the loop over the list, while the second segment is still to be
    visited: the loop then reads the released list.  No end-of-input is
    signalled to the sink. *)
Lemma C4_retry_exhaustion_destroys_inside_loop :
  exists A B state5,
    segments two_in_flight = [A; B] /\
    fst (ticks sample [101; 202; 303; 404; 505] [two_in_flight])
    = swept [state5] /\
    retransmit_count state5 = 5 /\
    segments state5 = [A; B] /\
    (exists n,
        ctcp_timer sample 606 [state5]
        = (use_after_free, [conn_send 0%nat A n; conn_remove 0%nat])) /\
    count_end_of_input (snd (ctcp_timer sample 606 [state5])) = 0%nat.
Proof.
  do 3 eexists.
  split; [reflexivity|]. split; [vm_compute; reflexivity|].
  split; [reflexivity|]. split; [reflexivity|].
  split; [eexists; vm_compute; reflexivity | reflexivity].
Qed.

(** ** Sender path *)

(** C2 at a failing run: a window of one segment (1440 bytes), a first read
    of one byte, then a read of 1440 bytes, one more than the 1439 bytes of
    room left.  [seqno] ends at 1442, past [send_base + send_window]. *)
Lemma C2_read_overshoots_window :
  let input := [bytes [x61]; bytes (repeat x62 (Z.to_nat (MAX_SEG_DATA_SIZE sample)))] in
  let before := fresh 1 1 200 in
  let after := fst (ctcp_read sample 0 input before) in
  (send_base before <= seqno before
   <= send_base before + send_window before) /\
  Forall (fun r => 0 < bytes_read r <= MAX_SEG_DATA_SIZE sample) input /\
  send_base after = 1 /\
  send_window after = MAX_SEG_DATA_SIZE sample /\
  seqno after = 1 + 1 + MAX_SEG_DATA_SIZE sample /\
  send_base after + send_window after < seqno after.
Proof.
  cbv zeta. split; [vm_compute; split; discriminate|].
  split; [repeat constructor; vm_compute; congruence|].
  vm_compute. repeat split; reflexivity.
Qed.

(** X23.  When nothing wraps around and no read returns more than a
    segment's worth of bytes, a call of [ctcp_read] leaves the window as it
    was, never moves [seqno] back, and leaves it less than
    [MAX_SEG_DATA_SIZE] past the end of the window. *)
Lemma ctcp_read_window_bound (P : platform) (now : Z)
      (input : list input_result) (state : ctcp_state_t) :
  Forall (fun r => bytes_read r <= MAX_SEG_DATA_SIZE P) input ->
  0 < MAX_SEG_DATA_SIZE P ->
  0 <= send_base state + send_window state ->
  send_base state + send_window state + MAX_SEG_DATA_SIZE P <= 2 ^ 32 ->
  0 <= seqno state
  < send_base state + send_window state + MAX_SEG_DATA_SIZE P ->
  let after := fst (ctcp_read P now input state) in
  send_base after = send_base state /\
  send_window after = send_window state /\
  seqno state <= seqno after
  < send_base state + send_window state + MAX_SEG_DATA_SIZE P.
Proof.
  intros Hin Hmax Hlow Hhigh. revert state Hlow Hhigh.
  induction Hin as [|r input Hr Hin IH]; intros state Hlow Hhigh Hseq;
    cbn [ctcp_read].
  - destruct (_ <? _); cbn; lia.
  - rewrite (wrap32_small (send_base state + send_window state)) by lia.
    destruct (seqno state <? send_base state + send_window state) eqn:C;
      [|cbn; lia].
    apply Z.ltb_lt in C.
    destruct (bytes_read r =? 0) eqn:E0; [cbn; lia|].
    destruct (bytes_read r =? -1) eqn:E1.
    + cbn. rewrite wrap32_small by lia. lia.
    + apply Z.eqb_neq in E0, E1.
      assert (Hn : 1 <= bytes_read r) by (destruct r; cbn in *; lia).
      match goal with
      | |- context [ctcp_read P now input ?s] =>
          specialize (IH s); destruct (ctcp_read P now input s) as [st evs]
      end.
      cbn [fst send_base send_window seqno set_last_sent_time set_seqno
           set_segments] in *.
      rewrite wrap32_small in IH by lia.
      specialize (IH Hlow Hhigh ltac:(lia)). lia.
Qed.

(** ** The list of unacknowledged segments *)

Lemma ctcp_read_appends_data (P : platform) (now : Z)
      (input : list input_result) (state : ctcp_state_t) :
  exists added,
    segments (fst (ctcp_read P now input state)) = segments state ++ added /\
    Forall queued_data added.
Proof.
  revert state. induction input as [|r input IH]; intros state;
    cbn [ctcp_read].
  - exists []. rewrite app_nil_r. destruct (_ <? _); split; auto.
  - destruct (_ <? _); [|exists []; rewrite app_nil_r; split; auto].
    destruct (bytes_read r =? 0) eqn:E0;
      [exists []; rewrite app_nil_r; split; auto|].
    destruct (bytes_read r =? -1) eqn:E1;
      [exists []; rewrite app_nil_r; split; auto|].
    match goal with
    | |- context [ctcp_read P now input ?s] =>
        destruct (IH s) as (added & Hq & Hall);
        destruct (ctcp_read P now input s) as [st evs]
    end.
    cbn [fst segments set_last_sent_time set_seqno set_segments] in *.
    exists (data_segment P state (buffer_of r) :: added). split.
    + rewrite Hq, <- app_assoc. reflexivity.
    + constructor; [|exact Hall]. split; [reflexivity|].
      destruct r; cbn in *; try discriminate.
      destruct bs; [discriminate|]. discriminate.
Qed.

Lemma output_loop_suffix (P : platform) (nodes : list ctcp_segment_t)
      (state : ctcp_state_t) :
  exists removed,
    nodes = removed ++ segments (fst (output_loop P state nodes)).
Proof.
  revert state. induction nodes as [|seg nodes IH]; intros state;
    cbn [output_loop].
  - exists []. reflexivity.
  - destruct (_ =? _); [|exists []; reflexivity].
    match goal with
    | |- context [output_loop P ?s nodes] =>
        destruct (IH s) as (removed & Hq);
        destruct (output_loop P s nodes) as [st evs]
    end.
    cbn [fst] in *. exists (seg :: removed). cbn. f_equal. exact Hq.
Qed.

Lemma timer_nodes_keeps_segments (P : platform) (now : Z)
      (nodes : list ctcp_segment_t) (state state' : ctcp_state_t) :
  fst (timer_nodes P now state nodes) = swept state' ->
  segments state' = segments state.
Proof.
  revert state. induction nodes as [|seg nodes IH]; intros state;
    cbn [timer_nodes].
  - cbn. intros H. injection H as <-. reflexivity.
  - unfold timer_visit.
    destruct (now - last_sent_time state >? rt_timeout state).
    + destruct (_ >=? MAX_NUM_XMITS P); [discriminate|].
      match goal with
      | |- context [timer_nodes P now ?s nodes] =>
          specialize (IH s); destruct (timer_nodes P now s nodes)
      end.
      cbn [fst] in *. intros H. rewrite (IH H). reflexivity.
    + specialize (IH state). destruct (timer_nodes P now state nodes).
      exact IH.
Qed.

Lemma timer_nodes_sends_nodes (P : platform) (now : Z)
      (nodes : list ctcp_segment_t) (state : ctcp_state_t) :
  Forall (fun d => In (fst d) nodes)
         (datagrams (snd (timer_nodes P now state nodes))).
Proof.
  revert state. induction nodes as [|seg nodes IH]; intros state;
    cbn [timer_nodes].
  - constructor.
  - assert (Hweak : forall l : list datagram,
               Forall (fun d => In (fst d) nodes) l ->
               Forall (fun d => In (fst d) (seg :: nodes)) l).
    { intros l. apply Forall_impl. intros d Hd. right. exact Hd. }
    unfold timer_visit.
    destruct (now - last_sent_time state >? rt_timeout state).
    + destruct (_ >=? MAX_NUM_XMITS P).
      * cbn. constructor; [left; reflexivity | constructor].
      * match goal with
        | |- context [timer_nodes P now ?s nodes] =>
            specialize (IH s); destruct (timer_nodes P now s nodes)
        end.
        cbn [snd] in *. cbn. constructor; [left; reflexivity|].
        apply Hweak, IH.
    + specialize (IH state). destruct (timer_nodes P now state nodes).
      cbn [snd] in *. apply Hweak, IH.
Qed.

Lemma reachable_queue (P : platform) (state : ctcp_state_t) :
  reachable P state -> Forall queued_data (segments state).
Proof.
  induction 1 as [c cfg l state Hinit
                 | now input state _ IH
                 | segment len state state' _ IH Hrecv
                 | state _ IH
                 | now state state' _ IH Htimer].
  - cbn in Hinit. injection Hinit as <-. constructor.
  - destruct (ctcp_read_appends_data P now input state) as (added & -> & Ha).
    apply Forall_app. split; assumption.
  - unfold ctcp_receive in Hrecv.
    destruct (has_flag _ (TH_FIN P)); [discriminate|].
    cbn in Hrecv. injection Hrecv as <-.
    unfold receive_ack.
    destruct (has_flag _ (TH_ACK P)); [|exact IH].
    destruct (_ >? _); [|exact IH].
    cbn [segments set_segments].
    destruct (remove_acked_split P (ntohl P (Segment.ackno segment))
                (segments state)) as (removed & Hq & _).
    rewrite Hq in IH. apply Forall_app in IH. apply IH.
  - unfold ctcp_output.
    destruct (output_loop_suffix P (segments state) state) as (removed & Hq).
    rewrite Hq in IH. apply Forall_app in IH. apply IH.
  - rewrite (timer_nodes_keeps_segments P now _ _ _ Htimer). exact IH.
Qed.

Lemma datagrams_app (evs evs' : list event) :
  datagrams (evs ++ evs') = datagrams evs ++ datagrams evs'.
Proof. unfold datagrams. apply flat_map_app. Qed.

Lemma ctcp_timer_sends_queued (P : platform) (now : Z)
      (state_list : list ctcp_state_t) :
  Forall (fun d => exists state,
              In state state_list /\ In (fst d) (segments state))
         (datagrams (snd (ctcp_timer P now state_list))).
Proof.
  induction state_list as [|state next IH]; cbn [ctcp_timer].
  - constructor.
  - pose proof (timer_nodes_sends_nodes P now (segments state) state) as Hs.
    assert (Hhere : Forall (fun d => exists st,
                                In st (state :: next) /\
                                In (fst d) (segments st))
                           (datagrams
                              (snd (timer_nodes P now state
                                      (segments state))))).
    { eapply Forall_impl; [|exact Hs].
      intros d Hd. exists state. split; [left; reflexivity | exact Hd]. }
    destruct (timer_nodes P now state (segments state)) as [[state'|] evs];
      cbn [snd] in *; [|exact Hhere].
    destruct (ctcp_timer P now next) as [r evs']. cbn [snd] in *.
    rewrite datagrams_app. apply Forall_app. split; [exact Hhere|].
    eapply Forall_impl; [|exact IH].
    intros d (st & Hin & Hd). exists st. split; [right; exact Hin | exact Hd].
Qed.

Lemma ctcp_read_fin_not_queued (P : platform) (now : Z)
      (input : list input_result) (state : ctcp_state_t) :
  segments (fst (ctcp_read P now (end_of_input :: input) state))
  = segments state.
Proof. cbn [ctcp_read]. destruct (_ <? _); reflexivity. Qed.

Lemma queued_data_no_fin (P : platform) (s : ctcp_segment_t) :
  queued_data s ->
  has_flag (ntohl P (Segment.flags s)) (TH_FIN P) = false.
Proof. intros [-> _]. rewrite ntohl_0. apply has_flag_0. Qed.

(** C10: the zero-payload FIN segment sent on end-of-input is not put on
    the list of unacknowledged segments.  In every reachable state that list
    holds only data segments, none with the FIN flag and none equal to a FIN
    segment of the sender path, and no segment that a sweep retransmits
    carries the FIN flag. *)
Theorem C10_fin_never_queued
        (P : platform) (state_list : list ctcp_state_t) :
  Forall (reachable P) state_list ->
  (forall state, In state state_list ->
     Forall (fun s => queued_data s /\
                      has_flag (ntohl P (Segment.flags s)) (TH_FIN P) = false)
            (segments state) /\
     (forall sender, ~ In (fin_segment P sender) (segments state)) /\
     forall now input,
       segments (fst (ctcp_read P now (end_of_input :: input) state))
       = segments state) /\
  forall now,
    Forall (fun d => carries_fin P d = false)
           (datagrams (snd (ctcp_timer P now state_list))).
Proof.
  intros Hreach.
  assert (Hq : forall state, In state state_list ->
                 Forall queued_data (segments state)).
  { intros state Hin. apply reachable_queue with (P := P).
    rewrite Forall_forall in Hreach. apply Hreach, Hin. }
  split.
  - intros state Hin. repeat split.
    + eapply Forall_impl; [|exact (Hq state Hin)].
      intros s Hs. split; [exact Hs | apply queued_data_no_fin, Hs].
    + intros sender Hfin.
      specialize (Hq state Hin). rewrite Forall_forall in Hq.
      destruct (Hq _ Hfin) as [_ Hdata]. apply Hdata. reflexivity.
    + intros now input. apply ctcp_read_fin_not_queued.
  - intros now.
    eapply Forall_impl; [|apply ctcp_timer_sends_queued].
    intros d (state & Hin & Hd). unfold carries_fin.
    apply queued_data_no_fin.
    specialize (Hq state Hin). rewrite Forall_forall in Hq. apply Hq, Hd.
Qed.

Lemma C10_fin_never_queued_witness :
  (forall state, In state [one_in_flight] ->
     Forall (fun s => queued_data s /\
                      has_flag (ntohl sample (Segment.flags s))
                               (TH_FIN sample) = false)
            (segments state) /\
     (forall sender, ~ In (fin_segment sample sender) (segments state)) /\
     forall now input,
       segments (fst (ctcp_read sample now (end_of_input :: input) state))
       = segments state) /\
  forall now,
    Forall (fun d => carries_fin sample d = false)
           (datagrams (snd (ctcp_timer sample now [one_in_flight]))).
Proof.
  apply (C10_fin_never_queued sample [one_in_flight]).
  constructor; [|constructor].
  apply reachable_read.
  apply (reachable_init sample 0%nat (sample_config 1 1 200) []).
  reflexivity.
Defined.

(** ** More on the sender path *)

(** Case analysis and induction for [ctcp_read], following its loop. *)
Lemma ctcp_read_cases (P : platform) (now : Z)
      (Q : list input_result -> ctcp_state_t ->
           ctcp_state_t * list event -> Prop) :
  (forall input state,
      (seqno state <? wrap32 (send_base state + send_window state)) = false ->
      Q input state (state, [])) ->
  (forall state, Q [] state (state, [])) ->
  (forall r input state, bytes_read r = 0 -> Q (r :: input) state (state, [])) ->
  (forall input state,
      (seqno state <? wrap32 (send_base state + send_window state)) = true ->
      Q (end_of_input :: input) state
        (set_seqno (wrap32 (seqno state + 1)) state,
         [conn_send (conn state) (fin_segment P state) (SEGMENT_SIZE P)])) ->
  (forall bs input state st evs,
      (seqno state <? wrap32 (send_base state + send_window state)) = true ->
      bs <> [] ->
      let state' :=
        set_last_sent_time now
          (set_seqno (wrap32 (seqno state + Z.of_nat (length bs)))
             (set_segments (segments state ++ [data_segment P state bs])
                state)) in
      ctcp_read P now input state' = (st, evs) ->
      Q input state' (st, evs) ->
      Q (bytes bs :: input) state
        (st, conn_send (conn state) (data_segment P state bs)
               (SEGMENT_SIZE P + Z.of_nat (length bs)) :: evs)) ->
  forall input state, Q input state (ctcp_read P now input state).
Proof.
  intros Hclosed Hnil Hblock Hfin Hdata.
  induction input as [|r input IH]; intros state; cbn [ctcp_read].
  - destruct (_ <? _) eqn:C; [apply Hnil | apply Hclosed, C].
  - destruct (seqno state <? _) eqn:C; [|apply Hclosed, C].
    destruct (bytes_read r =? 0) eqn:E0.
    { apply Hblock. apply Z.eqb_eq, E0. }
    destruct (bytes_read r =? -1) eqn:E1.
    { destruct r as [| |bs]; cbn in E0, E1; try discriminate.
      - apply Hfin, C.
      - apply Z.eqb_eq in E1. lia. }
    destruct r as [| |bs]; cbn in E0, E1; try discriminate.
    cbn [bytes_read buffer_of].
    match goal with
    | |- context [ctcp_read P now input ?s] =>
        specialize (IH s);
        destruct (ctcp_read P now input s) as [st evs] eqn:E
    end.
    apply Hdata; try assumption.
    intros ->. discriminate.
Qed.

Lemma wrap32_add_l (a b : Z) : wrap32 (wrap32 a + b) = wrap32 (a + b).
Proof. unfold wrap32. apply Zplus_mod_idemp_l. Qed.

Lemma wrap32_idem (a : Z) : wrap32 (wrap32 a) = wrap32 a.
Proof. apply wrap32_small, wrap32_range. Qed.

Lemma numbered_congr (P : platform) (ds : list datagram) (a b : Z) :
  wrap32 a = wrap32 b -> numbered P a ds -> numbered P b ds.
Proof.
  revert a b. induction ds as [|[s n] rest IH]; cbn [numbered]; [trivial|].
  intros a b Hab [Hs Hrest]. split; [congruence|].
  apply (IH (a + (n - SEGMENT_SIZE P))); [|exact Hrest].
  rewrite <- (wrap32_add_l a), <- (wrap32_add_l b), Hab. reflexivity.
Qed.

Lemma payload_data_segment (P : platform) (state : ctcp_state_t)
      (bs : list byte) :
  payload P (data_segment P state bs,
             SEGMENT_SIZE P + Z.of_nat (length bs)) = bs.
Proof.
  unfold payload. cbn [fst snd].
  destruct bs as [|b bs]; cbn [length].
  - rewrite gtb_false by lia. reflexivity.
  - rewrite gtb_true by lia.
    replace (Z.to_nat (SEGMENT_SIZE P + Z.of_nat (S (length bs))
                       - SEGMENT_SIZE P))
      with (length (b :: bs)) by (cbn [length]; lia).
    apply firstn_all.
Qed.

Lemma data_segment_no_fin (P : platform) (state : ctcp_state_t)
      (bs : list byte) (n : Z) :
  carries_fin P (data_segment P state bs, n) = false.
Proof. unfold carries_fin. cbn. rewrite ntohl_0. apply has_flag_0. Qed.

Lemma payload_header_only (P : platform) (s : ctcp_segment_t) :
  payload P (s, SEGMENT_SIZE P) = [].
Proof. unfold payload. cbn [snd]. rewrite gtb_false by lia. reflexivity. Qed.

Lemma fin_segment_carries_fin (P : platform) (state : ctcp_state_t) (n : Z) :
  0 < TH_FIN P < 2 ^ 32 ->
  carries_fin P (fin_segment P state, n) = true.
Proof.
  intros H. unfold carries_fin, has_flag. cbn.
  rewrite ntohl_htonl, wrap32_small, Z.land_diag by lia.
  destruct (TH_FIN P =? 0) eqn:E; [apply Z.eqb_eq in E; lia | reflexivity].
Qed.

(** X1.  The segments one call of [ctcp_read] sends are numbered
    consecutively from the [seqno] of the state: each seqno is the one
    before plus the payload length before, modulo 2^32. *)
Theorem ctcp_read_numbers_consecutively
        (P : platform) (now : Z) (input : list input_result)
        (state : ctcp_state_t) :
  numbered P (seqno state)
           (datagrams (snd (ctcp_read P now input state))).
Proof.
  revert input state.
  apply (ctcp_read_cases P now
           (fun _ state r => numbered P (seqno state) (datagrams (snd r))));
    cbn [snd datagrams flat_map numbered app]; try (intros; exact I).
  - intros _ state _. split; [apply ntohl_htonl | exact I].
  - intros bs input state st evs _ _ _ IH.
    split; [apply ntohl_htonl|].
    cbn [seqno set_last_sent_time set_seqno] in IH.
    apply (numbered_congr P _ _ _ (wrap32_idem _)) in IH.
    replace (seqno state
             + (SEGMENT_SIZE P + Z.of_nat (length bs) - SEGMENT_SIZE P))
      with (seqno state + Z.of_nat (length bs)) by lia.
    exact IH.
Qed.

(** X2.  [seqno] advances by the number of payload bytes sent plus one for
    a FIN, modulo 2^32. *)
Theorem ctcp_read_sequence_space
        (P : platform) (now : Z) (input : list input_result)
        (state : ctcp_state_t) :
  0 < TH_FIN P < 2 ^ 32 ->
  0 <= seqno state < 2 ^ 32 ->
  let r := ctcp_read P now input state in
  seqno (fst r)
  = wrap32 (seqno state + payload_bytes P (snd r) + fin_count P (snd r)).
Proof.
  intros Hfin. cbv zeta. revert input state.
  apply (ctcp_read_cases P now
           (fun _ state r =>
              0 <= seqno state < 2 ^ 32 ->
              seqno (fst r)
              = wrap32 (seqno state + payload_bytes P (snd r)
                        + fin_count P (snd r))));
    unfold payload_bytes, fin_count;
    cbn [fst snd datagrams flat_map app filter length];
    try (intros; rewrite wrap32_small; lia).
  - intros _ state _ _.
    rewrite payload_header_only, fin_segment_carries_fin by exact Hfin.
    cbn. f_equal. lia.
  - intros bs input state st evs _ _ _ IH _.
    rewrite payload_data_segment, data_segment_no_fin.
    rewrite IH by apply wrap32_range.
    cbn [seqno set_last_sent_time set_seqno].
    rewrite length_app, Nat2Z.inj_add.
    rewrite <- Z.add_assoc, wrap32_add_l. f_equal. lia.
Qed.

Lemma ctcp_read_sequence_space_witness :
  let r := ctcp_read sample 0 [bytes [x61; x62]; end_of_input]
             (fresh 2 2 200) in
  seqno (fst r)
  = wrap32 (seqno (fresh 2 2 200) + payload_bytes sample (snd r)
            + fin_count sample (snd r)).
Proof.
  apply (ctcp_read_sequence_space sample 0 [bytes [x61; x62]; end_of_input]
           (fresh 2 2 200)).
  - cbn. lia.
  - cbn. lia.
Defined.

(** X3.  Every segment with payload that [ctcp_read] sends is put on the list
    of unacknowledged segments, in the order sent, and nothing else is. *)
Theorem ctcp_read_enrolls_what_it_sends
        (P : platform) (now : Z) (input : list input_result)
        (state : ctcp_state_t) :
  let r := ctcp_read P now input state in
  segments (fst r)
  = segments state ++ map fst (with_payload P (datagrams (snd r))).
Proof.
  cbv zeta. revert input state.
  apply (ctcp_read_cases P now
           (fun _ state r =>
              segments (fst r)
              = segments state
                ++ map fst (with_payload P (datagrams (snd r)))));
    unfold with_payload;
    cbn [fst snd datagrams flat_map app filter map];
    try (intros; rewrite app_nil_r; reflexivity).
  - intros _ state _. rewrite gtb_false by lia. cbn. rewrite app_nil_r.
    reflexivity.
  - intros bs input state st evs _ Hbs _ IH.
    rewrite gtb_true by (destruct bs; [congruence | cbn [length]; lia]).
    rewrite IH.
    cbn [segments set_last_sent_time set_seqno set_segments map fst].
    rewrite <- app_assoc. reflexivity.
Qed.

(** X4.  The payloads sent are the chunks of input read, unmodified and in
    order: their concatenation is that of the first [k] results of
    [conn_input], for the number [k] of reads that returned bytes. *)
Theorem ctcp_read_sends_input_prefix
        (P : platform) (now : Z) (input : list input_result)
        (state : ctcp_state_t) :
  exists k,
    (k <= length input)%nat /\
    flat_map (payload P) (datagrams (snd (ctcp_read P now input state)))
    = flat_map buffer_of (firstn k input).
Proof.
  revert input state.
  apply (ctcp_read_cases P now
           (fun input _ r =>
              exists k,
                (k <= length input)%nat /\
                flat_map (payload P) (datagrams (snd r))
                = flat_map buffer_of (firstn k input)));
    cbn [snd datagrams flat_map app];
    try (intros; exists 0%nat; split; [lia | reflexivity]).
  - intros input state _. exists 0%nat. split; [lia|].
    rewrite payload_header_only. reflexivity.
  - intros bs input state st evs _ _ _ (k & Hk & IH).
    exists (S k). split; [cbn [length]; lia|].
    rewrite payload_data_segment, IH. reflexivity.
Qed.

(** ** Sender and receiver together *)

(** X5.  When the datagrams of one [ctcp_read] reach a receiver in the order
    sent, each once, the bytes written to the receiver's sink are exactly
    the payloads sent, which are the first [k] chunks the sender read from
    its input, [k] being the number of segments with payload it sent. *)
Theorem in_order_transfer_delivers_input
        (P : platform) (now : Z) (input : list input_result)
        (sender receiver : ctcp_state_t) :
  let sent := datagrams (snd (ctcp_read P now input sender)) in
  let k := length (with_payload P sent) in
  sink_bytes (snd (receive_all P receiver sent)) = flat_map (payload P) sent /\
  sink_bytes (snd (receive_all P receiver sent))
  = flat_map buffer_of (firstn k input).
Proof.
  cbv zeta.
  assert (H : forall receiver,
             sink_bytes
               (snd (receive_all P receiver
                       (datagrams (snd (ctcp_read P now input sender)))))
             = flat_map (payload P)
                 (datagrams (snd (ctcp_read P now input sender))) /\
             flat_map (payload P)
               (datagrams (snd (ctcp_read P now input sender)))
             = flat_map buffer_of
                 (firstn (length (with_payload P
                            (datagrams
                               (snd (ctcp_read P now input sender)))))
                    input)).
  { revert input sender.
    apply (ctcp_read_cases P now
             (fun input _ r =>
                forall receiver,
                  sink_bytes
                    (snd (receive_all P receiver (datagrams (snd r))))
                  = flat_map (payload P) (datagrams (snd r)) /\
                  flat_map (payload P) (datagrams (snd r))
                  = flat_map buffer_of
                      (firstn (length (with_payload P (datagrams (snd r))))
                         input)));
      unfold with_payload; cbn [snd];
      try solve [intros; split; reflexivity].
    - intros input state _ rcv.
      cbn [datagrams flat_map app filter snd receive_all].
      rewrite payload_header_only, gtb_false by lia.
      split; [|reflexivity].
      unfold ctcp_receive, receive_data. rewrite gtb_false by lia.
      destruct (has_flag _ (TH_FIN P)); reflexivity.
    - intros bs input state st evs _ Hbs _ IH rcv.
      pose proof (ctcp_receive_delivers P rcv (data_segment P state bs)
                    (SEGMENT_SIZE P + Z.of_nat (length bs))
                    (data_segment_no_fin P state bs _)) as [Hst Hsink].
      rewrite payload_data_segment in Hsink.
      change (datagrams
                (conn_send (conn state) (data_segment P state bs)
                   (SEGMENT_SIZE P + Z.of_nat (length bs)) :: evs))
        with ((data_segment P state bs,
               SEGMENT_SIZE P + Z.of_nat (length bs)) :: datagrams evs).
      cbn [receive_all flat_map filter snd].
      rewrite gtb_true by (destruct bs; [congruence | cbn [length]; lia]).
      rewrite payload_data_segment.
      destruct (ctcp_receive P rcv (data_segment P state bs)
                  (SEGMENT_SIZE P + Z.of_nat (length bs))) as [[r1|] evs1];
        cbn [fst snd] in Hst, Hsink; [|discriminate].
      destruct (IH r1) as [Hrecv Hpre].
      destruct (receive_all P r1 (datagrams evs)) as [r2 evs2].
      cbn [snd length firstn flat_map buffer_of] in *.
      rewrite sink_bytes_app, Hsink, Hrecv, <- Hpre. split; reflexivity. }
  destruct (H receiver) as [H1 H2]. split; [exact H1|].
  rewrite H1. exact H2.
Qed.

(** ** More on the receiver path *)

Lemma receive_ack_send_base (P : platform) (state : ctcp_state_t)
      (segment : ctcp_segment_t) :
  send_base (receive_ack P state segment)
  = if has_flag (ntohl P (Segment.flags segment)) (TH_ACK P)
    then Z.max (send_base state) (ntohl P (Segment.ackno segment))
    else send_base state.
Proof.
  unfold receive_ack.
  destruct (has_flag _ _); [|reflexivity].
  destruct (_ >? _) eqn:E; cbn [send_base set_segments set_send_base].
  - apply Z.gtb_lt in E. lia.
  - rewrite Z.gtb_ltb in E. apply Z.ltb_ge in E. lia.
Qed.

Lemma receive_ack_segments_suffix (P : platform) (state : ctcp_state_t)
      (segment : ctcp_segment_t) :
  exists removed,
    segments state = removed ++ segments (receive_ack P state segment).
Proof.
  unfold receive_ack.
  destruct (has_flag _ _); [|exists []; reflexivity].
  destruct (_ >? _); [|exists []; reflexivity].
  cbn [segments set_segments].
  destruct (remove_acked_split P (ntohl P (Segment.ackno segment))
              (segments state)) as (removed & Hq & _).
  exists removed. exact Hq.
Qed.

Lemma ctcp_receive_state (P : platform) (state state' : ctcp_state_t)
      (segment : ctcp_segment_t) (len : Z) :
  fst (ctcp_receive P state segment len) = Some state' ->
  state' = receive_ack P state segment.
Proof.
  unfold ctcp_receive. destruct (has_flag _ (TH_FIN P)); [discriminate|].
  cbn. intros H. injection H as <-. reflexivity.
Qed.

(** X6.  Whatever arrives, in whatever order, [send_base] never decreases
    and the list of unacknowledged segments only loses segments from its
    front. *)
Theorem receive_all_send_base_monotone
        (P : platform) (arrivals : list datagram)
        (state state' : ctcp_state_t) :
  fst (receive_all P state arrivals) = Some state' ->
  send_base state <= send_base state' /\
  exists removed, segments state = removed ++ segments state'.
Proof.
  revert state.
  induction arrivals as [|[segment len] rest IH]; intros state;
    cbn [receive_all].
  - cbn. intros H. injection H as <-. split; [lia | exists []; reflexivity].
  - destruct (ctcp_receive P state segment len) as [[st1|] evs] eqn:E;
      [|discriminate].
    pose proof (ctcp_receive_state P state st1 segment len) as Hst.
    rewrite E in Hst. specialize (Hst eq_refl). subst st1.
    specialize (IH (receive_ack P state segment)).
    destruct (receive_all P (receive_ack P state segment) rest) as [r evs'].
    cbn [fst] in *. intros H. destruct (IH H) as [Hle (removed & Hq)].
    split.
    + rewrite receive_ack_send_base in Hle.
      destruct (has_flag _ _); lia.
    + destruct (receive_ack_segments_suffix P state segment) as (rm & Hrm).
      exists (rm ++ removed). rewrite <- app_assoc, <- Hq. exact Hrm.
Qed.

Lemma receive_all_send_base_monotone_witness :
  send_base one_in_flight <= send_base (receive_ack sample one_in_flight
                                          (ack_of 5)) /\
  exists removed,
    segments one_in_flight
    = removed ++ segments (receive_ack sample one_in_flight (ack_of 5)).
Proof.
  apply (receive_all_send_base_monotone sample
           [(ack_of 5, SEGMENT_SIZE sample); (ack_of 3, SEGMENT_SIZE sample)]
           one_in_flight).
  reflexivity.
Defined.

(** X7.  A segment received a second time changes nothing in the state: a
    duplicate acknowledgment is ignored. *)
Theorem ctcp_receive_duplicate_keeps_state
        (P : platform) (state state' : ctcp_state_t)
        (segment : ctcp_segment_t) (len len' : Z) :
  fst (ctcp_receive P state segment len) = Some state' ->
  fst (ctcp_receive P state' segment len') = Some state'.
Proof.
  intros H. pose proof (ctcp_receive_state P _ _ _ _ H) as ->.
  unfold ctcp_receive in *.
  destruct (has_flag _ (TH_FIN P)); [discriminate|]. cbn [fst]. f_equal.
  unfold receive_ack at 1.
  destruct (has_flag _ (TH_ACK P)) eqn:Hack; [|reflexivity].
  rewrite receive_ack_send_base, Hack.
  rewrite gtb_false by lia. reflexivity.
Qed.

Lemma ctcp_receive_duplicate_keeps_state_witness :
  fst (ctcp_receive sample (receive_ack sample one_in_flight (ack_of 5))
         (ack_of 5) (SEGMENT_SIZE sample))
  = Some (receive_ack sample one_in_flight (ack_of 5)).
Proof.
  apply (ctcp_receive_duplicate_keeps_state sample one_in_flight
           (receive_ack sample one_in_flight (ack_of 5)) (ack_of 5)
           (SEGMENT_SIZE sample) (SEGMENT_SIZE sample)).
  reflexivity.
Defined.

(** ** The retransmission count *)

Lemma ctcp_read_keeps_count (P : platform) (now : Z)
      (input : list input_result) (state : ctcp_state_t) :
  retransmit_count (fst (ctcp_read P now input state))
  = retransmit_count state.
Proof.
  revert input state.
  apply (ctcp_read_cases P now
           (fun _ state r =>
              retransmit_count (fst r) = retransmit_count state));
    cbn [fst]; try reflexivity.
  intros bs input state st evs _ _ _ IH. rewrite IH. reflexivity.
Qed.

Lemma receive_ack_keeps_count (P : platform) (state : ctcp_state_t)
      (segment : ctcp_segment_t) :
  retransmit_count (receive_ack P state segment) = retransmit_count state /\
  last_sent_time (receive_ack P state segment) = last_sent_time state.
Proof.
  unfold receive_ack.
  destruct (has_flag _ _); [|split; reflexivity].
  destruct (_ >? _); split; reflexivity.
Qed.

Lemma output_loop_keeps_count (P : platform) (nodes : list ctcp_segment_t)
      (state : ctcp_state_t) :
  retransmit_count (fst (output_loop P state nodes)) = retransmit_count state.
Proof.
  revert state. induction nodes as [|seg nodes IH]; intros state;
    cbn [output_loop]; [reflexivity|].
  destruct (_ =? _); [|reflexivity].
  match goal with
  | |- context [output_loop P ?s nodes] =>
      specialize (IH s); destruct (output_loop P s nodes)
  end.
  cbn [fst] in *. rewrite IH. reflexivity.
Qed.

Lemma timer_nodes_count (P : platform) (now : Z)
      (nodes : list ctcp_segment_t) (state state' : ctcp_state_t) :
  fst (timer_nodes P now state nodes) = swept state' ->
  retransmit_count state <= retransmit_count state' /\
  (retransmit_count state' = retransmit_count state \/
   retransmit_count state' < MAX_NUM_XMITS P).
Proof.
  revert state. induction nodes as [|seg nodes IH]; intros state;
    cbn [timer_nodes].
  - cbn. intros H. injection H as <-. lia.
  - unfold timer_visit.
    destruct (now - last_sent_time state >? rt_timeout state).
    + destruct (_ >=? MAX_NUM_XMITS P) eqn:E; [discriminate|].
      cbn [retransmit_count set_last_sent_time set_retransmit_count] in E.
      rewrite Z.geb_leb in E. apply Z.leb_gt in E.
      match goal with
      | |- context [timer_nodes P now ?s nodes] =>
          specialize (IH s); destruct (timer_nodes P now s nodes)
      end.
      cbn [fst retransmit_count set_last_sent_time set_retransmit_count] in *.
      intros H. specialize (IH H). lia.
    + specialize (IH state). destruct (timer_nodes P now state nodes).
      exact IH.
Qed.

(** X8.  A connection that exists has retransmitted fewer than
    [MAX_NUM_XMITS] times since it was created: the count is never reset, by
    an acknowledgment or otherwise, and the sweep that makes it reach
    [MAX_NUM_XMITS] destroys the connection. *)
Theorem reachable_retransmit_count_bounded
        (P : platform) (state : ctcp_state_t) :
  0 < MAX_NUM_XMITS P ->
  reachable P state ->
  0 <= retransmit_count state < MAX_NUM_XMITS P.
Proof.
  intros Hmax.
  induction 1 as [c cfg l state Hinit
                 | now input state _ IH
                 | segment len state state' _ IH Hrecv
                 | state _ IH
                 | now state state' _ IH Htimer].
  - cbn in Hinit. injection Hinit as <-. cbn. lia.
  - rewrite ctcp_read_keeps_count. exact IH.
  - rewrite (ctcp_receive_state P _ _ _ _ Hrecv).
    destruct (receive_ack_keeps_count P state segment) as [-> _]. exact IH.
  - unfold ctcp_output. rewrite output_loop_keeps_count. exact IH.
  - pose proof (timer_nodes_count P now _ _ _ Htimer). lia.
Qed.

Lemma reachable_retransmit_count_bounded_witness :
  0 <= retransmit_count one_in_flight < MAX_NUM_XMITS sample.
Proof.
  apply (reachable_retransmit_count_bounded sample one_in_flight).
  - reflexivity.
  - apply reachable_read.
    apply (reachable_init sample 0%nat (sample_config 1 1 200) []).
    reflexivity.
Defined.

(** X9.  No arrival resets the retransmission count or the retransmission
    clock: whatever is received, acknowledgments included, both are as they
    were. *)
Theorem receive_all_keeps_retransmission_state
        (P : platform) (arrivals : list datagram)
        (state state' : ctcp_state_t) :
  fst (receive_all P state arrivals) = Some state' ->
  retransmit_count state' = retransmit_count state /\
  last_sent_time state' = last_sent_time state.
Proof.
  revert state.
  induction arrivals as [|[segment len] rest IH]; intros state;
    cbn [receive_all].
  - cbn. intros H. injection H as <-. split; reflexivity.
  - destruct (ctcp_receive P state segment len) as [[st1|] evs] eqn:E;
      [|discriminate].
    pose proof (ctcp_receive_state P state st1 segment len) as Hst.
    rewrite E in Hst. specialize (Hst eq_refl). subst st1.
    specialize (IH (receive_ack P state segment)).
    destruct (receive_all P (receive_ack P state segment) rest) as [r evs'].
    cbn [fst] in *. intros H. destruct (IH H) as [Hc Ht].
    destruct (receive_ack_keeps_count P state segment) as [Hc' Ht'].
    split; congruence.
Qed.

Lemma receive_all_keeps_retransmission_state_witness :
  retransmit_count (receive_ack sample one_in_flight (ack_of 5))
  = retransmit_count one_in_flight /\
  last_sent_time (receive_ack sample one_in_flight (ack_of 5))
  = last_sent_time one_in_flight.
Proof.
  apply (receive_all_keeps_retransmission_state sample
           [(ack_of 5, SEGMENT_SIZE sample)] one_in_flight).
  reflexivity.
Defined.

(** ** More on the sweep *)

Lemma timer_nodes_not_due (P : platform) (now : Z)
      (nodes : list ctcp_segment_t) (state : ctcp_state_t) :
  now - last_sent_time state <= rt_timeout state ->
  timer_nodes P now state nodes = (swept state, []).
Proof.
  intros Hdue. induction nodes as [|seg nodes IH]; cbn [timer_nodes];
    [reflexivity|].
  unfold timer_visit. rewrite gtb_false by exact Hdue.
  rewrite IH. reflexivity.
Qed.

(** With a timeout that is not negative, the inner loop acts on the first
    node only: its retransmission sets [last_sent_time] to [now], and no
    later node is due. *)
Lemma timer_nodes_head_only (P : platform) (now : Z)
      (state : ctcp_state_t) (first : ctcp_segment_t)
      (rest : list ctcp_segment_t) :
  0 <= rt_timeout state ->
  now - last_sent_time state > rt_timeout state ->
  let sent := conn_send (conn state) first (ntohs P (Segment.len first)) in
  let state' :=
    set_last_sent_time now
      (set_retransmit_count (retransmit_count state + 1) state) in
  timer_nodes P now state (first :: rest)
  = if retransmit_count state + 1 >=? MAX_NUM_XMITS P
    then (use_after_free, [sent; conn_remove (conn state)])
    else (swept state', [sent]).
Proof.
  intros Hrt Hdue. cbv zeta. cbn [timer_nodes]. unfold timer_visit.
  rewrite gtb_true by lia.
  cbn [retransmit_count set_last_sent_time set_retransmit_count].
  destruct (_ >=? MAX_NUM_XMITS P); [reflexivity|].
  rewrite timer_nodes_not_due; [reflexivity|].
  cbn [last_sent_time rt_timeout set_last_sent_time set_retransmit_count].
  lia.
Qed.



Lemma timer_nodes_calls (P : platform) (now : Z)
      (nodes : list ctcp_segment_t) (state : ctcp_state_t) :
  filter is_conn_output (snd (timer_nodes P now state nodes)) = [] /\
  (forall state', fst (timer_nodes P now state nodes) = swept state' ->
                  forallb is_send (snd (timer_nodes P now state nodes))
                  = true).
Proof.
  revert state. induction nodes as [|seg nodes IH]; intros state;
    cbn [timer_nodes].
  - split; [reflexivity|]. intros; reflexivity.
  - unfold timer_visit.
    destruct (now - last_sent_time state >? rt_timeout state).
    + destruct (_ >=? MAX_NUM_XMITS P).
      * split; [reflexivity | discriminate].
      * match goal with
        | |- context [timer_nodes P now ?s nodes] =>
            specialize (IH s); destruct (timer_nodes P now s nodes)
        end.
        cbn [fst snd app filter forallb is_conn_output is_send andb] in *.
        exact IH.
    + specialize (IH state). destruct (timer_nodes P now state nodes).
      exact IH.
Qed.

(** X13.  [ctcp_timer] never calls [conn_output]: nothing is written to the
    sink and no end-of-input is signalled, also when it gives a connection
    up.  When it gets through the list of connections it has made no call
    but [conn_send]: every [conn_remove] it makes is followed by a read of
    released memory. *)
Theorem ctcp_timer_calls
        (P : platform) (now : Z) (state_list : list ctcp_state_t) :
  filter is_conn_output (snd (ctcp_timer P now state_list)) = [] /\
  (forall state_list',
      fst (ctcp_timer P now state_list) = swept state_list' ->
      forallb is_send (snd (ctcp_timer P now state_list)) = true /\
      length state_list' = length state_list).
Proof.
  induction state_list as [|state next IH]; cbn [ctcp_timer].
  - split; [reflexivity|]. cbn. intros l H. injection H as <-.
    split; reflexivity.
  - destruct (timer_nodes_calls P now (segments state) state) as [Hout Hs].
    destruct (timer_nodes P now state (segments state)) as [[state'|] evs];
      cbn [fst snd] in *; [|split; [exact Hout | discriminate]].
    destruct IH as [Hout' Hs'].
    destruct (ctcp_timer P now next) as [[next'|] evs'];
      cbn [fst snd] in *.
    + split; [rewrite filter_app, Hout, Hout'; reflexivity|].
      intros l H. injection H as <-.
      destruct (Hs' next' eq_refl) as [Hsend Hlen].
      split; [rewrite forallb_app, (Hs state' eq_refl), Hsend; reflexivity|].
      cbn [length]. rewrite Hlen. reflexivity.
    + split; [rewrite filter_app, Hout, Hout'; reflexivity | discriminate].
Qed.

(** ** ctcp_output *)

Lemma set_segments_same (state : ctcp_state_t) :
  set_segments (segments state) state = state.
Proof. destruct state; reflexivity. Qed.

Lemma output_loop_spec (P : platform) (nodes : list ctcp_segment_t)
      (state : ctcp_state_t) :
  let r := output_loop P state nodes in
  exists removed,
    nodes = removed ++ segments (fst r) /\
    snd r = map (fun s => conn_output (conn state) (Segment.data s)
                            (output_len P s)) removed /\
    conn (fst r) = conn state /\
    match segments (fst r) with
    | [] => True
    | s :: _ => ntohl P (Segment.seqno s) <> recv_base (fst r)
    end.
Proof.
  cbv zeta. revert state.
  induction nodes as [|seg nodes IH]; intros state; cbn [output_loop].
  - exists []. repeat split.
  - destruct (ntohl P (Segment.seqno seg) =? recv_base state) eqn:E.
    + match goal with
      | |- context [output_loop P ?s nodes] =>
          destruct (IH s) as (removed & Hq & Hev & Hc & Hhd);
          destruct (output_loop P s nodes) as [st evs]
      end.
      cbn [fst snd conn set_recv_base] in *.
      exists (seg :: removed). repeat split.
      * cbn. f_equal. exact Hq.
      * cbn [map]. rewrite Hev. reflexivity.
      * exact Hc.
      * exact Hhd.
    + exists []. cbn [fst snd segments set_segments recv_base app map].
      repeat split. apply Z.eqb_neq, E.
Qed.

Lemma output_loop_turns (P : platform) (nodes : list ctcp_segment_t)
      (state : ctcp_state_t) :
  let r := output_loop P state nodes in
  exists removed,
    nodes = removed ++ segments (fst r) /\
    snd r = map (fun s => conn_output (conn state) (Segment.data s)
                            (output_len P s)) removed /\
    taken_in_turn P (recv_base state) removed (recv_base (fst r)) /\
    match segments (fst r) with
    | [] => True
    | s :: _ => ntohl P (Segment.seqno s) <> recv_base (fst r)
    end.
Proof.
  cbv zeta. revert state.
  induction nodes as [|seg nodes IH]; intros state; cbn [output_loop].
  - exists []. repeat split.
  - destruct (ntohl P (Segment.seqno seg) =? recv_base state) eqn:E.
    + apply Z.eqb_eq in E. fold (output_len P seg).
      match goal with
      | |- context [output_loop P ?s nodes] =>
          destruct (IH s) as (removed & Hq & Hev & Hturn & Hhd);
          destruct (output_loop P s nodes) as [st evs]
      end.
      cbn [fst snd conn recv_base set_recv_base] in *.
      exists (seg :: removed). repeat split.
      * cbn. f_equal. exact Hq.
      * cbn [map]. rewrite Hev. reflexivity.
      * exact E.
      * exact Hturn.
      * exact Hhd.
    + exists []. cbn [fst snd segments set_segments recv_base app map
                      taken_in_turn].
      repeat split. apply Z.eqb_neq, E.
Qed.

(** X14.  [ctcp_output] works on the list of unacknowledged segments, the
    one [ctcp_read] fills and the sweep retransmits from.  It removes
    segments from the front of that list for as long as the first one has
    the seqno [recv_base] stands at, writes the data of each removed
    segment to the sink and moves [recv_base] by the length computed for
    it; it stops at the first segment whose seqno is not [recv_base], and
    removes nothing else. *)
Theorem ctcp_output_consumes_unacknowledged
        (P : platform) (state : ctcp_state_t) :
  let r := ctcp_output P state in
  exists removed,
    segments state = removed ++ segments (fst r) /\
    snd r = map (fun s => conn_output (conn state) (Segment.data s)
                            (output_len P s)) removed /\
    taken_in_turn P (recv_base state) removed (recv_base (fst r)) /\
    match segments (fst r) with
    | [] => True
    | s :: _ => ntohl P (Segment.seqno s) <> recv_base (fst r)
    end.
Proof.
  cbv zeta. unfold ctcp_output.
  destruct (output_loop_turns P (segments state) state)
    as (removed & Hq & Hev & Hturn & Hhd).
  exists removed. repeat split; assumption.
Qed.

(** X15.  A second call of [ctcp_output] right after the first does
    nothing. *)
Theorem ctcp_output_idempotent (P : platform) (state : ctcp_state_t) :
  ctcp_output P (fst (ctcp_output P state))
  = (fst (ctcp_output P state), []).
Proof.
  unfold ctcp_output.
  destruct (output_loop_spec P (segments state) state)
    as (removed & _ & _ & _ & Hhd).
  cbv zeta in Hhd.
  destruct (output_loop P state (segments state)) as [st evs].
  cbn [fst] in *.
  destruct (segments st) as [|s rest] eqn:Hs; cbn [output_loop].
  - rewrite <- Hs. rewrite set_segments_same. reflexivity.
  - apply Z.eqb_neq in Hhd. rewrite Hhd.
    rewrite <- Hs. rewrite set_segments_same. reflexivity.
Qed.

(** ** The [len] field

    [ctcp_read] stores [htonl] of the length in the 16-bit [len] field;
    [ctcp_output] and [ctcp_timer] read the field with [ntohs]. *)

Lemma wrap16_small (x : Z) : 0 <= x < 2 ^ 16 -> wrap16 x = x.
Proof. intros. unfold wrap16. apply Z.mod_small. assumption. Qed.

Lemma wrap16_bswap32_small (x : Z) :
  0 <= x < 2 ^ 16 -> wrap16 (bswap32 x) = 0.
Proof.
  intros Hx. unfold wrap16, bswap32.
  assert (E16 : x / 2 ^ 16 = 0) by (apply Z.div_small; lia).
  assert (E24 : x / 2 ^ 24 = 0) by (apply Z.div_small; lia).
  rewrite E16, E24. cbn [Z.modulo Z.div_eucl].
  replace (x mod 256 * 2 ^ 24 + (x / 2 ^ 8) mod 256 * 2 ^ 16 + 0 * 2 ^ 8 + 0)
    with ((x mod 256 * 2 ^ 8 + (x / 2 ^ 8) mod 256) * 2 ^ 16) by lia.
  apply Z_mod_mult.
Qed.

(** The length read back from the [len] field of a segment built by
    [ctcp_read]. *)
Lemma ntohs_len_data_segment (P : platform) (state : ctcp_state_t)
      (bs : list byte) :
  0 <= SEGMENT_SIZE P + Z.of_nat (length bs) < 2 ^ 16 ->
  ntohs P (Segment.len (data_segment P state bs))
  = if little_endian P then 0
    else SEGMENT_SIZE P + Z.of_nat (length bs).
Proof.
  intros H. unfold ntohs, htons.
  cbn [Segment.len data_segment Segment.set_data Segment.set_len
       Segment.set_seqno Segment.zero].
  unfold htonl.
  destruct (little_endian P).
  - rewrite wrap32_small by lia.
    rewrite wrap16_bswap32_small by lia. reflexivity.
  - rewrite wrap32_small by lia.
    rewrite (wrap16_small (SEGMENT_SIZE P + Z.of_nat (length bs))) by lia.
    apply wrap16_small. lia.
Qed.

Lemma output_len_big_endian (P : platform) (state : ctcp_state_t)
      (bs : list byte) :
  little_endian P = false ->
  0 <= SEGMENT_SIZE P ->
  SEGMENT_SIZE P + Z.of_nat (length bs) < 2 ^ 16 ->
  output_len P (data_segment P state bs) = Z.of_nat (length bs).
Proof.
  intros Hbe H0 H. unfold output_len.
  rewrite ntohs_len_data_segment, Hbe by lia.
  unfold wrap64. rewrite Z.mod_small by lia. lia.
Qed.

Lemma chained_cons (P : platform) (s : ctcp_segment_t) (b : Z)
      (rest : list ctcp_segment_t) :
  ntohl P (Segment.seqno s) = b ->
  output_len P s = Z.of_nat (length (Segment.data s)) ->
  chained P (wrap32 (b + output_len P s)) rest ->
  chained P b (s :: rest).
Proof. intros. cbn [chained]. repeat split; assumption. Qed.

(** On a big-endian host the segments [ctcp_read] adds to the list follow
    one another from [seqno]. *)
Lemma ctcp_read_adds_chained (P : platform) (now : Z) :
  little_endian P = false ->
  0 <= SEGMENT_SIZE P ->
  SEGMENT_SIZE P + MAX_SEG_DATA_SIZE P < 2 ^ 16 ->
  forall input state,
    Forall (fun r => bytes_read r <= MAX_SEG_DATA_SIZE P) input ->
    0 <= seqno state < 2 ^ 32 ->
    let r := ctcp_read P now input state in
    exists added,
      segments (fst r) = segments state ++ added /\
      chained P (seqno state) added /\
      flat_map Segment.data added
      = flat_map (payload P) (datagrams (snd r)).
Proof.
  intros Hbe H0 Hmax. cbv zeta.
  apply (ctcp_read_cases P now
           (fun input state r =>
              Forall (fun r => bytes_read r <= MAX_SEG_DATA_SIZE P) input ->
              0 <= seqno state < 2 ^ 32 ->
              exists added,
                segments (fst r) = segments state ++ added /\
                chained P (seqno state) added /\
                flat_map Segment.data added
                = flat_map (payload P) (datagrams (snd r))));
    cbn [fst snd];
    try solve [intros; exists []; rewrite app_nil_r; repeat split].
  - intros input state _ _ _. exists []. rewrite app_nil_r. cbn.
    rewrite payload_header_only. repeat split.
  - intros bs input state st evs _ _ _ IH Hin Hseq.
    inversion Hin as [|r l Hr Hin']; subst. cbn [bytes_read] in Hr.
    destruct (IH Hin') as (added & Hq & Hch & Hdata);
      [cbn [seqno set_last_sent_time set_seqno]; apply wrap32_range|].
    cbn [segments seqno set_last_sent_time set_seqno set_segments] in *.
    exists (data_segment P state bs :: added).
    rewrite Hq, <- app_assoc. split; [reflexivity|].
    pose proof (output_len_big_endian P state bs Hbe H0 ltac:(lia)) as Hlen.
    split.
    + apply chained_cons.
      * cbn [Segment.seqno data_segment Segment.set_data Segment.set_len
             Segment.set_seqno Segment.zero].
        rewrite ntohl_htonl. apply wrap32_small, Hseq.
      * rewrite Hlen. reflexivity.
      * rewrite Hlen. exact Hch.
    + cbn [flat_map datagrams app]. rewrite payload_data_segment.
      cbn [flat_map Segment.data data_segment Segment.set_data].
      f_equal. exact Hdata.
Qed.

Lemma output_loop_drains_chained (P : platform)
      (nodes : list ctcp_segment_t) (state : ctcp_state_t) :
  chained P (recv_base state) nodes ->
  segments (fst (output_loop P state nodes)) = [] /\
  sink_bytes (snd (output_loop P state nodes))
  = flat_map Segment.data nodes.
Proof.
  revert state. induction nodes as [|s nodes IH]; intros state;
    cbn [chained output_loop].
  - intros _. split; reflexivity.
  - intros (Hs & Hlen & Hrest).
    rewrite Hs, Z.eqb_refl.
    fold (output_len P s).
    specialize (IH (set_recv_base (wrap32 (recv_base state + output_len P s))
                      state) Hrest).
    destruct (output_loop P _ nodes) as [st evs].
    cbn [fst snd] in *. destruct IH as [Hq Hsink]. split; [exact Hq|].
    cbn [sink_bytes flat_map]. fold (sink_bytes evs).
    rewrite Hsink, Hlen, Nat2Z.id, firstn_all. reflexivity.
Qed.

(** X16.  On a big-endian host, for a connection on which nothing is
    unacknowledged and [recv_base] equals [seqno] (as after [ctcp_init]), a
    call of [ctcp_output] after [ctcp_read] writes to the connection's own
    sink the very bytes [ctcp_read] has just sent, and leaves the list of
    unacknowledged segments empty: none of them can be retransmitted. *)
Theorem ctcp_output_echoes_sent_data
        (P : platform) (now : Z) (input : list input_result)
        (state : ctcp_state_t) :
  little_endian P = false ->
  0 <= SEGMENT_SIZE P ->
  SEGMENT_SIZE P + MAX_SEG_DATA_SIZE P < 2 ^ 16 ->
  Forall (fun r => bytes_read r <= MAX_SEG_DATA_SIZE P) input ->
  segments state = [] ->
  recv_base state = seqno state ->
  0 <= seqno state < 2 ^ 32 ->
  let sent := ctcp_read P now input state in
  let out := ctcp_output P (fst sent) in
  segments (fst out) = [] /\
  sink_bytes (snd out) = flat_map (payload P) (datagrams (snd sent)).
Proof.
  intros Hbe H0 Hmax Hin Hempty Hbase Hseq. cbv zeta.
  destruct (ctcp_read_adds_chained P now Hbe H0 Hmax input state Hin Hseq)
    as (added & Hq & Hch & Hdata).
  assert (Hrb : recv_base (fst (ctcp_read P now input state))
                = recv_base state).
  { clear. revert input state.
    apply (ctcp_read_cases P now
             (fun _ state r => recv_base (fst r) = recv_base state));
      cbn [fst]; try reflexivity.
    intros bs input state st evs _ _ _ IH. rewrite IH. reflexivity. }
  unfold ctcp_output.
  rewrite Hempty in Hq. cbn [app] in Hq. rewrite Hq.
  destruct (output_loop_drains_chained P added
              (fst (ctcp_read P now input state))) as [Hnil Hsink].
  { rewrite Hrb, Hbase. exact Hch. }
  split; [exact Hnil|]. rewrite Hsink. exact Hdata.
Qed.

Lemma ctcp_output_echoes_sent_data_witness :
  let sent := ctcp_read sample_be 0 [bytes [x61; x62]; bytes [x63]]
                (fresh 2 2 200) in
  let out := ctcp_output sample_be (fst sent) in
  segments (fst out) = [] /\
  sink_bytes (snd out) = flat_map (payload sample_be) (datagrams (snd sent)).
Proof.
  apply (ctcp_output_echoes_sent_data sample_be 0
           [bytes [x61; x62]; bytes [x63]] (fresh 2 2 200)).
  - reflexivity.
  - cbn. lia.
  - cbn. lia.
  - repeat constructor; cbn; lia.
  - reflexivity.
  - reflexivity.
  - cbn. lia.
Defined.

Lemma ctcp_read_keeps_receiver_side (P : platform) (now : Z)
      (input : list input_result) (state : ctcp_state_t) :
  recv_base (fst (ctcp_read P now input state)) = recv_base state /\
  conn (fst (ctcp_read P now input state)) = conn state.
Proof.
  revert input state.
  apply (ctcp_read_cases P now
           (fun _ state r => recv_base (fst r) = recv_base state /\
                             conn (fst r) = conn state));
    cbn [fst]; try (intros; split; reflexivity).
  intros bs input state st evs _ _ _ IH. exact IH.
Qed.

(** One read of a non-empty chunk into an open window, with nothing more
    to read. *)
Lemma ctcp_read_one_chunk (P : platform) (now : Z) (bs : list byte)
      (state : ctcp_state_t) :
  bs <> [] ->
  (seqno state <? wrap32 (send_base state + send_window state)) = true ->
  ctcp_read P now [bytes bs] state
  = (set_last_sent_time now
       (set_seqno (wrap32 (seqno state + Z.of_nat (length bs)))
          (set_segments (segments state ++ [data_segment P state bs])
             state)),
     [conn_send (conn state) (data_segment P state bs)
        (SEGMENT_SIZE P + Z.of_nat (length bs))]).
Proof.
  intros Hbs Hopen. cbn [ctcp_read bytes_read buffer_of]. rewrite Hopen.
  destruct bs as [|b bs]; [congruence|]. cbn [length].
  destruct (Z.of_nat (S (length bs)) =? 0) eqn:E0;
    [apply Z.eqb_eq in E0; lia|].
  destruct (Z.of_nat (S (length bs)) =? -1) eqn:E1;
    [apply Z.eqb_eq in E1; lia|].
  destruct (seqno (set_last_sent_time _ _) <? _); reflexivity.
Qed.

(** X17.  On a little-endian host the [len] field of a segment built by
    [ctcp_read] reads back as 0 with [ntohs].  A call of [ctcp_output] that
    finds such a segment at [recv_base] asks [conn_output] to write
    2^64 - sizeof(ctcp_segment_t) bytes from the segment's payload. *)
Theorem ctcp_output_little_endian_length
        (P : platform) (now : Z) (bs : list byte)
        (input : list input_result) (state : ctcp_state_t) :
  little_endian P = true ->
  0 < SEGMENT_SIZE P ->
  SEGMENT_SIZE P + Z.of_nat (length bs) < 2 ^ 16 ->
  bs <> [] ->
  segments state = [] ->
  recv_base state = seqno state ->
  0 <= seqno state < 2 ^ 32 ->
  (seqno state <? wrap32 (send_base state + send_window state)) = true ->
  exists evs,
    snd (ctcp_output P (fst (ctcp_read P now (bytes bs :: input) state)))
    = conn_output (conn state) bs (2 ^ 64 - SEGMENT_SIZE P) :: evs.
Proof.
  intros Hle H0 Hlen Hbs Hempty Hbase Hseq Hopen.
  cbn [ctcp_read bytes_read buffer_of]. rewrite Hopen.
  destruct (Z.of_nat (length bs) =? 0) eqn:E0.
  { apply Z.eqb_eq in E0. destruct bs; [congruence | cbn in E0; lia]. }
  destruct (Z.of_nat (length bs) =? -1) eqn:E1;
    [apply Z.eqb_eq in E1; lia|].
  match goal with
  | |- context [ctcp_read P now input ?s] =>
      destruct (ctcp_read_appends_data P now input s) as (added & Hq & _);
      destruct (ctcp_read_keeps_receiver_side P now input s) as [Hrb Hc];
      destruct (ctcp_read P now input s) as [st evs]
  end.
  cbn [fst segments recv_base conn set_last_sent_time set_seqno
       set_segments] in *.
  rewrite Hempty in Hq. cbn [app] in Hq.
  unfold ctcp_output. rewrite Hq. cbn [output_loop].
  replace (ntohl P (Segment.seqno (data_segment P state bs)) =? recv_base st)
    with true.
  2:{ symmetry. apply Z.eqb_eq.
      cbn [Segment.seqno data_segment Segment.set_data Segment.set_len
           Segment.set_seqno Segment.zero].
      rewrite ntohl_htonl, wrap32_small by exact Hseq. congruence. }
  rewrite ntohs_len_data_segment, Hle by lia.
  destruct (output_loop P _ added) as [st' evs']. cbn [snd].
  exists evs'. rewrite Hc. f_equal. f_equal.
  unfold wrap64. symmetry.
  apply Z.mod_unique with (q := -1); lia.
Qed.

Lemma ctcp_output_little_endian_length_witness :
  exists evs,
    snd (ctcp_output sample
           (fst (ctcp_read sample 0 (bytes [x61; x62] :: [])
                   (fresh 2 2 200))))
    = conn_output (conn (fresh 2 2 200)) [x61; x62]
        (2 ^ 64 - SEGMENT_SIZE sample) :: evs.
Proof.
  apply (ctcp_output_little_endian_length sample 0 [x61; x62] []
           (fresh 2 2 200)).
  - reflexivity.
  - cbn. lia.
  - cbn. lia.
  - discriminate.
  - reflexivity.
  - reflexivity.
  - cbn. lia.
  - reflexivity.
Defined.

(** X18.  A segment is first sent with its full length, header and payload.
    When the sweep retransmits it, the length passed to [conn_send] is read
    from the [len] field with [ntohs]: the full length on a big-endian
    host, and 0 on a little-endian host. *)
Theorem retransmission_length
        (P : platform) (t0 now : Z) (bs : list byte)
        (state : ctcp_state_t) :
  0 <= SEGMENT_SIZE P + Z.of_nat (length bs) < 2 ^ 16 ->
  bs <> [] ->
  segments state = [] ->
  (seqno state <? wrap32 (send_base state + send_window state)) = true ->
  0 <= rt_timeout state ->
  now - t0 > rt_timeout state ->
  retransmit_count state + 1 < MAX_NUM_XMITS P ->
  let sent := ctcp_read P t0 [bytes bs] state in
  snd sent
  = [conn_send (conn state) (data_segment P state bs)
       (SEGMENT_SIZE P + Z.of_nat (length bs))] /\
  snd (ctcp_timer P now [fst sent])
  = [conn_send (conn state) (data_segment P state bs)
       (if little_endian P then 0
        else SEGMENT_SIZE P + Z.of_nat (length bs))].
Proof.
  intros Hlen Hbs Hempty Hopen Hrt Hdue Hcount. cbv zeta.
  rewrite ctcp_read_one_chunk by assumption. cbn [fst snd].
  split; [reflexivity|].
  cbn [ctcp_timer segments set_last_sent_time set_seqno set_segments].
  rewrite Hempty. cbn [app].
  rewrite timer_nodes_head_only
    by (cbn [rt_timeout last_sent_time set_last_sent_time set_seqno
             set_segments]; lia).
  cbn [retransmit_count conn set_last_sent_time set_seqno set_segments].
  replace (retransmit_count state + 1 >=? MAX_NUM_XMITS P) with false
    by (symmetry; rewrite Z.geb_leb; apply Z.leb_gt; lia).
  cbn [snd app fst]. rewrite ntohs_len_data_segment by exact Hlen.
  reflexivity.
Qed.

Lemma retransmission_length_witness :
  let sent := ctcp_read sample 0 [bytes [x61; x62]] (fresh 2 2 100) in
  snd sent
  = [conn_send (conn (fresh 2 2 100))
       (data_segment sample (fresh 2 2 100) [x61; x62])
       (SEGMENT_SIZE sample + Z.of_nat (length [x61; x62]))] /\
  snd (ctcp_timer sample 150 [fst sent])
  = [conn_send (conn (fresh 2 2 100))
       (data_segment sample (fresh 2 2 100) [x61; x62])
       (if little_endian sample then 0
        else SEGMENT_SIZE sample + Z.of_nat (length [x61; x62]))].
Proof.
  apply (retransmission_length sample 0 150 [x61; x62] (fresh 2 2 100)).
  - cbn. lia.
  - discriminate.
  - reflexivity.
  - reflexivity.
  - cbn. lia.
  - cbn. lia.
  - cbn. lia.
Defined.

(** ** The list of connections *)

Lemma Registry_linked_frame (r r' : Registry.t) (l : list Registry.addr) :
  (forall x, In x l -> Registry.nodes r' x = Registry.nodes r x) ->
  forall from p, Registry.linked r from p l -> Registry.linked r' from p l.
Proof.
  induction l as [|a rest IH]; intros Hsame from p; cbn [Registry.linked].
  - trivial.
  - intros (Hp & nx & Ha & Hrest). split; [exact Hp|].
    exists nx. split.
    + rewrite Hsame by (left; reflexivity). exact Ha.
    + apply IH; [|exact Hrest]. intros x Hx. apply Hsame. right. exact Hx.
Qed.

(** X19.  The links [ctcp_init] sets put the new state at the head of the
    list of connections and keep the list well formed: every [prev] still
    points to the place that holds the pointer to its state. *)
Theorem Registry_init_link_represents
        (r : Registry.t) (l : list Registry.addr) (a : Registry.addr) :
  Registry.represents r l ->
  ~ In a l ->
  exists r',
    Registry.init_link a r = Some r' /\
    Registry.represents r' (a :: l).
Proof.
  intros [Hl Hnd] Hnew. unfold Registry.init_link.
  cbn [Registry.state_list Registry.set_node].
  destruct l as [|b rest]; cbn [Registry.linked] in Hl.
  - rewrite Hl. eexists. split; [reflexivity|].
    split; [|constructor; [exact Hnew | exact Hnd]].
    cbn. split; [reflexivity|]. exists None.
    rewrite Nat.eqb_refl. split; reflexivity.
  - destruct Hl as (Hp & nx & Hb & Hrest). rewrite Hp.
    assert (Hab : a <> b) by (intros ->; apply Hnew; left; reflexivity).
    unfold Registry.set_prev. cbn [Registry.nodes Registry.set_node].
    replace (Nat.eqb b a) with false
      by (symmetry; apply Nat.eqb_neq; congruence).
    rewrite Hb. eexists. split; [reflexivity|].
    split; [|constructor; [exact Hnew | exact Hnd]].
    cbn [Registry.linked Registry.state_list Registry.nodes
         Registry.set_node Registry.next].
    split; [reflexivity|]. exists (Some b).
    replace (Nat.eqb a b) with false
      by (symmetry; apply Nat.eqb_neq; congruence).
    rewrite Nat.eqb_refl. split; [reflexivity|].
    split; [reflexivity|]. exists nx.
    rewrite Nat.eqb_refl. split; [reflexivity|].
    apply (Registry_linked_frame r); [|exact Hrest].
    intros x Hx. cbn [Registry.nodes].
    inversion Hnd as [|? ? Hnot _]; subst.
    replace (Nat.eqb x b) with false
      by (symmetry; apply Nat.eqb_neq; intros ->; contradiction).
    replace (Nat.eqb x a) with false
      by (symmetry; apply Nat.eqb_neq; intros ->; apply Hnew; right;
          exact Hx).
    reflexivity.
Qed.

Lemma Registry_init_link_represents_witness :
  exists r',
    Registry.init_link 8%nat one_connection = Some r' /\
    Registry.represents r' [8%nat; 7%nat].
Proof.
  apply (Registry_init_link_represents one_connection [7%nat] 8%nat).
  - split.
    + cbn. split; [reflexivity|]. eexists. split; reflexivity.
    + repeat constructor. intros [].
  - cbn. intuition discriminate.
Defined.

Lemma Registry_destroy_effect (r : Registry.t) (a : Registry.addr)
      (nx : option Registry.addr) (pv : Registry.slot) :
  Registry.nodes r a = Some (Registry.mk_node nx pv) ->
  (forall b, nx = Some b ->
             b <> a /\ Registry.nodes r b <> None /\
             pv <> Registry.next_slot b) ->
  (forall x, pv = Registry.next_slot x ->
             x <> a /\ Registry.nodes r x <> None /\ nx <> Some x) ->
  exists r',
    Registry.destroy_unlink a r = Some r' /\
    Registry.nodes r' a = None /\
    Registry.state_list r'
    = match pv with
      | Registry.state_list_slot => nx
      | Registry.next_slot _ => Registry.state_list r
      end /\
    (forall y, y <> a -> nx <> Some y -> pv <> Registry.next_slot y ->
               Registry.nodes r' y = Registry.nodes r y) /\
    (forall b nb, nx = Some b -> Registry.nodes r b = Some nb ->
                  Registry.nodes r' b
                  = Some (Registry.mk_node (Registry.next nb) pv)) /\
    (forall x n, pv = Registry.next_slot x ->
                 Registry.nodes r x = Some n ->
                 Registry.nodes r' x
                 = Some (Registry.mk_node nx (Registry.prev n))).
Proof.
  intros Ha Hnx Hpv. unfold Registry.destroy_unlink. rewrite Ha.
  cbn [Registry.next Registry.prev].
  destruct nx as [b|].
  - destruct (Hnx b eq_refl) as (Hba & Hb & Hpvb).
    destruct (Registry.nodes r b) as [nb|] eqn:Eb; [|congruence].
    unfold Registry.set_prev. rewrite Eb.
    cbn [Registry.nodes Registry.set_node].
    replace (Nat.eqb a b) with false
      by (symmetry; apply Nat.eqb_neq; congruence).
    rewrite Ha. cbn [Registry.next Registry.prev].
    destruct pv as [|x]; cbn [Registry.store].
    + eexists. split; [reflexivity|].
      cbn [Registry.nodes Registry.set_node Registry.state_list].
      repeat split.
      * rewrite Nat.eqb_refl. reflexivity.
      * intros y Hya Hyb _. registry_eqb.
      * intros b' nb' Hb' Hnb'. injection Hb' as <-. registry_eqb.
      * intros x n Hx. discriminate.
    + destruct (Hpv x eq_refl) as (Hxa & Hx & Hxb).
      cbn [Registry.nodes Registry.set_node].
      replace (Nat.eqb x b) with false
        by (symmetry; apply Nat.eqb_neq; congruence).
      destruct (Registry.nodes r x) as [n|] eqn:Ex; [|congruence].
      eexists. split; [reflexivity|].
      cbn [Registry.nodes Registry.set_node Registry.state_list].
      repeat split.
      * rewrite Nat.eqb_refl. reflexivity.
      * intros y Hya Hyb Hyx. registry_eqb.
      * intros b' nb' Hb' Hnb'. injection Hb' as <-. registry_eqb.
      * intros x' n' Hx' Hn'. injection Hx' as <-. registry_eqb.
  - rewrite Ha. cbn [Registry.next Registry.prev].
    destruct pv as [|x]; cbn [Registry.store].
    + eexists. split; [reflexivity|].
      cbn [Registry.nodes Registry.set_node Registry.state_list].
      repeat split.
      * rewrite Nat.eqb_refl. reflexivity.
      * intros y Hya _ _. registry_eqb.
      * intros b' nb' Hb'. discriminate.
      * intros x n Hx. discriminate.
    + destruct (Hpv x eq_refl) as (Hxa & Hx & _).
      destruct (Registry.nodes r x) as [n|] eqn:Ex; [|congruence].
      eexists. split; [reflexivity|].
      cbn [Registry.nodes Registry.set_node Registry.state_list].
      repeat split.
      * rewrite Nat.eqb_refl. reflexivity.
      * intros y Hya _ Hyx. registry_eqb.
      * intros b' nb' Hb'. discriminate.
      * intros x' n' Hx' Hn'. injection Hx' as <-. registry_eqb.
Qed.

Lemma Registry_linked_allocated (r : Registry.t) (l : list Registry.addr) :
  forall from p x,
    Registry.linked r from p l -> In x l -> Registry.nodes r x <> None.
Proof.
  induction l as [|a rest IH]; intros from p x; cbn [Registry.linked].
  - intros _ [].
  - intros (_ & nx & Ha & Hrest) [<- | Hx]; [congruence|].
    eapply IH; eassumption.
Qed.

Lemma Registry_linked_mid (r : Registry.t) (a : Registry.addr)
      (l2 : list Registry.addr) :
  forall l1 from p,
    Registry.linked r from p (l1 ++ a :: l2) ->
    exists nx,
      Registry.nodes r a
      = Some (Registry.mk_node nx (Registry.last_slot from l1)) /\
      Registry.linked r (Registry.next_slot a) nx l2.
Proof.
  induction l1 as [|x l1 IH]; intros from p;
    cbn [app Registry.linked Registry.last_slot].
  - intros (_ & nx & Ha & Hrest). exists nx. split; assumption.
  - intros (_ & nx & _ & Hrest). eapply IH. exact Hrest.
Qed.

Lemma Registry_last_slot_cases (l : list Registry.addr) :
  forall from,
    (l = [] /\ Registry.last_slot from l = from) \/
    exists z, In z l /\ Registry.last_slot from l = Registry.next_slot z.
Proof.
  induction l as [|x l IH]; intros from; cbn [Registry.last_slot].
  - left. split; reflexivity.
  - right. destruct (IH (Registry.next_slot x)) as [[-> E] | (z & Hz & E)].
    + exists x. split; [left; reflexivity | exact E].
    + exists z. split; [right; exact Hz | exact E].
Qed.

Lemma Registry_linked_head (r : Registry.t) (from : Registry.slot)
      (p : option Registry.addr) (l : list Registry.addr) :
  Registry.linked r from p l ->
  p = None \/ exists b, p = Some b /\ In b l.
Proof.
  destruct l as [|b rest]; cbn [Registry.linked].
  - intros ->. left. reflexivity.
  - intros (-> & _). right. exists b. split; [reflexivity | left; reflexivity].
Qed.

Lemma Registry_linked_unlinked (r r' : Registry.t) (a : Registry.addr)
      (nx : option Registry.addr) (pv : Registry.slot)
      (l2 : list Registry.addr) :
  Registry.nodes r a = Some (Registry.mk_node nx pv) ->
  (forall y, y <> a -> nx <> Some y -> pv <> Registry.next_slot y ->
             Registry.nodes r' y = Registry.nodes r y) ->
  (forall b nb, nx = Some b -> Registry.nodes r b = Some nb ->
                Registry.nodes r' b
                = Some (Registry.mk_node (Registry.next nb) pv)) ->
  (forall x n, pv = Registry.next_slot x ->
               Registry.nodes r x = Some n ->
               Registry.nodes r' x
               = Some (Registry.mk_node nx (Registry.prev n))) ->
  forall l1 from p,
    NoDup (l1 ++ a :: l2) ->
    (forall y, In y (l1 ++ a :: l2) -> from <> Registry.next_slot y) ->
    Registry.linked r from p (l1 ++ a :: l2) ->
    Registry.linked r' from (match l1 with [] => nx | _ => p end)
                    (l1 ++ l2).
Proof.
  intros Ha Hother Hsucc Hpred.
  induction l1 as [|x l1 IH]; intros from p Hnd Hfrom Hl.
  - cbn [app] in *. cbn [Registry.linked] in Hl.
    destruct Hl as (_ & nx0 & Ha0 & Hrest).
    rewrite Ha in Ha0. injection Ha0 as <- <-.
    inversion Hnd as [|? ? Hnot Hnd2]; subst.
    destruct l2 as [|b l2]; cbn [Registry.linked] in *; [exact Hrest|].
    destruct Hrest as (Hnx & nb & Hb & Hrest). split; [exact Hnx|].
    exists nb. split.
    + rewrite (Hsucc b _ Hnx Hb). reflexivity.
    + apply (Registry_linked_frame r); [|exact Hrest].
      intros y Hy. inversion Hnd2 as [|? ? Hnotb _]; subst.
      apply Hother.
      * intros ->. apply Hnot. right. exact Hy.
      * intros E. injection E as ->. contradiction.
      * apply Hfrom. right. right. exact Hy.
  - cbn [app] in *. inversion Hnd as [|? ? Hnot Hnd']; subst.
    cbn [Registry.linked] in Hl. destruct Hl as (Hp & nxx & Hx & Hrest).
    cbn [Registry.linked]. split; [exact Hp|].
    exists (match l1 with [] => nx | _ => nxx end). split.
    + destruct (Registry_linked_mid r a l2 l1 _ _ Hrest)
        as (nx0 & Ha0 & Hl2).
      rewrite Ha in Ha0. injection Ha0 as <- Hpv.
      destruct l1 as [|z l1].
      * cbn [Registry.last_slot] in Hpv.
        rewrite (Hpred x _ Hpv Hx). reflexivity.
      * rewrite <- Hx. apply Hother.
        -- intros ->. apply Hnot, in_elt.
        -- intros E.
           destruct (Registry_linked_head _ _ _ _ Hl2)
             as [E' | (b & E' & Hb)]; [congruence|].
           rewrite E' in E. injection E as ->.
           apply Hnot, in_or_app. right. right. exact Hb.
        -- destruct (Registry_last_slot_cases (z :: l1)
                       (Registry.next_slot x))
             as [[E _] | (w & Hw & E)]; [discriminate|].
           rewrite Hpv, E. intros E'. injection E' as ->.
           apply Hnot, in_or_app. left. exact Hw.
    + apply IH.
      * exact Hnd'.
      * intros y Hy E. injection E as ->. contradiction.
      * exact Hrest.
Qed.

(** X20.  [ctcp_destroy] takes its state, and no other, out of the list of
    connections, wherever the state stands in it, and leaves the list well
    formed.  The state is released: a second [ctcp_destroy] of it reads
    released memory. *)
Theorem Registry_destroy_unlink_represents
        (r : Registry.t) (l1 l2 : list Registry.addr) (a : Registry.addr) :
  Registry.represents r (l1 ++ a :: l2) ->
  exists r',
    Registry.destroy_unlink a r = Some r' /\
    Registry.represents r' (l1 ++ l2) /\
    Registry.nodes r' a = None /\
    Registry.destroy_unlink a r' = None.
Proof.
  intros [Hl Hnd].
  destruct (Registry_linked_mid r a l2 l1 _ _ Hl) as (nx & Ha & Hl2).
  set (pv := Registry.last_slot Registry.state_list_slot l1) in *.
  assert (Hnota : ~ In a (l1 ++ l2)) by (apply NoDup_remove_2, Hnd).
  assert (Hpvin : forall x, pv = Registry.next_slot x -> In x l1).
  { intros x E.
    destruct (Registry_last_slot_cases l1 Registry.state_list_slot)
      as [[_ E'] | (z & Hz & E')]; fold pv in E'.
    - congruence.
    - rewrite E' in E. injection E as ->. exact Hz. }
  assert (Hnxin : forall b, nx = Some b -> In b l2).
  { intros b E.
    destruct (Registry_linked_head _ _ _ _ Hl2) as [E' | (b' & E' & Hb)];
      [congruence|].
    rewrite E' in E. injection E as ->. exact Hb. }
  assert (Hdisj : forall x, In x l1 -> In x l2 -> False).
  { intros x H1 H2. apply NoDup_remove_1 in Hnd.
    revert x H1 H2. clear -Hnd.
    induction l1 as [|y l1 IH]; cbn [app] in *; [intros x []|].
    inversion Hnd as [|? ? Hnot Hnd']; subst.
    intros x [<- | H1] H2.
    - apply Hnot, in_or_app. right. exact H2.
    - eapply IH; eassumption. }
  destruct (Registry_destroy_effect r a nx pv Ha)
    as (r' & Hr' & Hfree & Hhead & Hother & Hsucc & Hpred).
  { intros b E. pose proof (Hnxin b E) as Hb. repeat split.
    - intros ->. apply Hnota, in_or_app. right. exact Hb.
    - apply (Registry_linked_allocated r _ _ _ b Hl2 Hb).
    - intros E'. apply (Hdisj b); [apply Hpvin, E' | exact Hb]. }
  { intros x E. pose proof (Hpvin x E) as Hx. repeat split.
    - intros ->. apply Hnota, in_or_app. left. exact Hx.
    - apply (Registry_linked_allocated r _ _ _ x Hl).
      apply in_or_app. left. exact Hx.
    - intros E'. apply (Hdisj x); [exact Hx | apply Hnxin, E']. }
  exists r'. split; [exact Hr'|]. split; [|split; [exact Hfree|]].
  - split; [|apply NoDup_remove_1 in Hnd; exact Hnd].
    pose proof (Registry_linked_unlinked r r' a nx pv l2 Ha Hother Hsucc
                  Hpred l1 Registry.state_list_slot (Registry.state_list r)
                  Hnd ltac:(intros; discriminate) Hl) as Hres.
    replace (Registry.state_list r')
      with (match l1 with [] => nx | _ => Registry.state_list r end);
      [exact Hres|].
    rewrite Hhead. subst pv.
    destruct (Registry_last_slot_cases l1 Registry.state_list_slot)
      as [[-> E] | (z & Hz & E)].
    + reflexivity.
    + rewrite E. destruct l1; [destruct Hz | reflexivity].
  - unfold Registry.destroy_unlink. rewrite Hfree. reflexivity.
Qed.

Lemma Registry_destroy_unlink_represents_witness :
  exists r',
    Registry.destroy_unlink 7%nat two_connections = Some r' /\
    Registry.represents r' ([8%nat] ++ []) /\
    Registry.nodes r' 7%nat = None /\
    Registry.destroy_unlink 7%nat r' = None.
Proof.
  apply (Registry_destroy_unlink_represents two_connections [8%nat] []
           7%nat).
  split.
  - cbn. split; [reflexivity|]. eexists. split; [reflexivity|].
    split; [reflexivity|]. eexists. split; reflexivity.
  - repeat constructor; cbn; intuition discriminate.
Defined.

(** ** The order of the list of unacknowledged segments *)

Lemma StronglySorted_snoc {A : Type} (R : A -> A -> Prop) (l : list A)
      (x : A) :
  StronglySorted R l -> Forall (fun y => R y x) l ->
  StronglySorted R (l ++ [x]).
Proof.
  induction 1 as [|y l Hs IH Hy]; intros Hx; cbn [app].
  - constructor; constructor.
  - inversion Hx as [|? ? Hyx Hlx]; subst.
    constructor; [apply IH, Hlx|].
    apply Forall_app. split; [exact Hy | constructor; [exact Hyx|constructor]].
Qed.

Lemma StronglySorted_suffix {A : Type} (R : A -> A -> Prop)
      (l1 l2 : list A) :
  StronglySorted R (l1 ++ l2) -> StronglySorted R l2.
Proof.
  induction l1 as [|x l1 IH]; cbn [app]; [trivial|].
  intros H. inversion H; subst. apply IH. assumption.
Qed.

Lemma in_order_suffix (P : platform) (state state' : ctcp_state_t)
      (removed : list ctcp_segment_t) :
  segments state = removed ++ segments state' ->
  seqno state' = seqno state ->
  in_order P state -> in_order P state'.
Proof.
  unfold in_order. intros Hq Hseq [Hs Hlt]. rewrite Hq in Hs, Hlt.
  rewrite Hseq. split.
  - eapply StronglySorted_suffix. exact Hs.
  - apply Forall_app in Hlt. apply Hlt.
Qed.

(** X21.  As long as sequence numbers do not wrap around, [ctcp_read] keeps
    the list of unacknowledged segments in order: seqnos increase along the
    list and are below the [seqno] of the state. *)
Theorem ctcp_read_keeps_order
        (P : platform) (now : Z) (input : list input_result)
        (state : ctcp_state_t) :
  Forall (fun r => bytes_read r <= MAX_SEG_DATA_SIZE P) input ->
  send_base state + send_window state + MAX_SEG_DATA_SIZE P <= 2 ^ 32 ->
  0 <= send_base state + send_window state ->
  0 <= seqno state ->
  in_order P state ->
  in_order P (fst (ctcp_read P now input state)).
Proof.
  revert input state.
  apply (ctcp_read_cases P now
           (fun input state r =>
              Forall (fun r => bytes_read r <= MAX_SEG_DATA_SIZE P) input ->
              send_base state + send_window state + MAX_SEG_DATA_SIZE P
              <= 2 ^ 32 ->
              0 <= send_base state + send_window state ->
              0 <= seqno state ->
              in_order P state ->
              in_order P (fst r)));
    cbn [fst]; try (intros; assumption).
  - intros input state Hopen _ _ _ Hseq [Hs Hlt]. apply Z.ltb_lt in Hopen.
    pose proof (wrap32_range (send_base state + send_window state)).
    split; cbn [segments seqno set_seqno]; [exact Hs|].
    rewrite wrap32_small by lia.
    eapply Forall_impl; [|exact Hlt]. cbn. intros s Hs'. lia.
  - intros bs input state st evs Hopen Hbs _ IH Hin Hhigh Hlow Hseq [Hs Hlt].
    inversion Hin as [|r l Hr Hin']; subst. cbn [bytes_read] in Hr.
    assert (Hn : 1 <= Z.of_nat (length bs))
      by (destruct bs; [congruence | cbn [length]; lia]).
    apply Z.ltb_lt in Hopen. rewrite wrap32_small in Hopen by lia.
    cbn [send_base send_window seqno segments set_last_sent_time set_seqno
         set_segments] in IH.
    rewrite wrap32_small in IH by lia.
    apply IH; try assumption; try lia.
    assert (Hseg : ntohl P (Segment.seqno (data_segment P state bs))
                   = seqno state).
    { cbn [Segment.seqno data_segment Segment.set_data Segment.set_len
           Segment.set_seqno Segment.zero].
      rewrite ntohl_htonl. apply wrap32_small. lia. }
    split; cbn [segments seqno set_last_sent_time set_seqno set_segments].
    + apply StronglySorted_snoc; [exact Hs|].
      unfold seqno_lt. rewrite Hseg. exact Hlt.
    + apply Forall_app. split.
      * eapply Forall_impl; [|exact Hlt]. cbn. intros s Hs'. lia.
      * constructor; [rewrite Hseg; lia | constructor].
Qed.

Lemma ctcp_read_keeps_order_witness :
  in_order sample
    (fst (ctcp_read sample 0 [bytes [x61; x62]; bytes [x63]]
            (fresh 2 2 200))).
Proof.
  apply (ctcp_read_keeps_order sample 0 [bytes [x61; x62]; bytes [x63]]
           (fresh 2 2 200)).
  - repeat constructor; cbn; lia.
  - cbn. lia.
  - cbn. lia.
  - cbn. lia.
  - split; constructor.
Defined.

Lemma remove_acked_filter (P : platform) (ackno : Z)
      (queue : list ctcp_segment_t) :
  StronglySorted (seqno_lt P) queue ->
  remove_acked P ackno queue
  = filter (fun s => ackno <=? ntohl P (Segment.seqno s)) queue.
Proof.
  induction 1 as [|first rest Hs IH Hfirst]; cbn [remove_acked filter];
    [reflexivity|].
  destruct (ntohl P (Segment.seqno first) <? ackno) eqn:E.
  - apply Z.ltb_lt in E.
    replace (ackno <=? ntohl P (Segment.seqno first)) with false
      by (symmetry; apply Z.leb_gt; lia).
    exact IH.
  - apply Z.ltb_ge in E.
    replace (ackno <=? ntohl P (Segment.seqno first)) with true
      by (symmetry; apply Z.leb_le; lia).
    f_equal. symmetry. apply forallb_filter_id.
    apply forallb_forall. intros s Hs'.
    rewrite Forall_forall in Hfirst. specialize (Hfirst s Hs').
    unfold seqno_lt in Hfirst. apply Z.leb_le. lia.
Qed.

(** X22.  On a list in order, an acknowledgment that moves [send_base]
    removes exactly the segments whose seqno is below ackno, wherever they
    stand, and the list stays in order. *)
Theorem ctcp_receive_ack_filters
        (P : platform) (state : ctcp_state_t) (segment : ctcp_segment_t)
        (len : Z) :
  in_order P state ->
  has_flag (ntohl P (Segment.flags segment)) (TH_ACK P) = true ->
  has_flag (ntohl P (Segment.flags segment)) (TH_FIN P) = false ->
  ntohl P (Segment.ackno segment) > send_base state ->
  exists state',
    fst (ctcp_receive P state segment len) = Some state' /\
    segments state'
    = filter (fun s => ntohl P (Segment.ackno segment)
                       <=? ntohl P (Segment.seqno s))
             (segments state) /\
    in_order P state'.
Proof.
  intros Hord Hack Hfin Hgt.
  exists (receive_ack P state segment).
  assert (E : receive_ack P state segment
              = set_segments
                  (remove_acked P (ntohl P (Segment.ackno segment))
                     (segments state))
                  (set_send_base (ntohl P (Segment.ackno segment)) state)).
  { unfold receive_ack. rewrite Hack, gtb_true by lia. reflexivity. }
  split; [unfold ctcp_receive; rewrite Hfin; reflexivity|].
  split.
  - rewrite E. cbn [segments set_segments].
    apply remove_acked_filter. apply Hord.
  - destruct (receive_ack_segments_suffix P state segment) as (rm & Hrm).
    apply (in_order_suffix P state _ rm Hrm); [|exact Hord].
    rewrite E. reflexivity.
Qed.

Lemma ctcp_receive_ack_filters_witness :
  exists state',
    fst (ctcp_receive sample two_in_flight (ack_of 3) (SEGMENT_SIZE sample))
    = Some state' /\
    segments state'
    = filter (fun s => ntohl sample (Segment.ackno (ack_of 3))
                       <=? ntohl sample (Segment.seqno s))
             (segments two_in_flight) /\
    in_order sample state'.
Proof.
  apply (ctcp_receive_ack_filters sample two_in_flight (ack_of 3)
           (SEGMENT_SIZE sample)).
  - split.
    + repeat constructor; try (vm_compute; reflexivity).
    + repeat constructor; try (vm_compute; reflexivity).
  - reflexivity.
  - reflexivity.
  - vm_compute. reflexivity.
Defined.

(** Witness of the bound on the window overshoot. *)
Lemma ctcp_read_window_bound_witness :
  let state := fresh 1 1 200 in
  let after := fst (ctcp_read sample 0 [bytes [x61]; bytes [x62; x63]]
                      state) in
  send_base after = send_base state /\
  send_window after = send_window state /\
  seqno state <= seqno after
  < send_base state + send_window state + MAX_SEG_DATA_SIZE sample.
Proof.
  apply (ctcp_read_window_bound sample 0 [bytes [x61]; bytes [x62; x63]]
           (fresh 1 1 200)).
  - repeat constructor; cbn; lia.
  - cbn. lia.
  - cbn. lia.
  - cbn. lia.
  - cbn. lia.
Defined.

Lemma ctcp_timer_calls_witness :
  filter is_conn_output (snd (ctcp_timer sample 150 [two_in_flight])) = [] /\
  forallb is_send (snd (ctcp_timer sample 150 [two_in_flight])) = true /\
  length (match fst (ctcp_timer sample 150 [two_in_flight]) with
          | swept l => l
          | use_after_free => []
          end) = length [two_in_flight].
Proof.
  destruct (ctcp_timer_calls sample 150 [two_in_flight]) as [Hout Hsend].
  split; [exact Hout|].
  apply (Hsend _ eq_refl).
Defined.

(** ** Fields that are never set *)

(** X24.  No segment built here carries a checksum or a window: in every
    segment that [ctcp_read] or [ctcp_receive] passes to [conn_send] the
    [cksum] and [window] fields are zero. *)
Theorem sent_segments_are_bare
        (P : platform) (now : Z) (input : list input_result)
        (state : ctcp_state_t) (segment : ctcp_segment_t) (len : Z) :
  Forall (fun d => bare (fst d))
         (datagrams (snd (ctcp_read P now input state))) /\
  Forall (fun d => bare (fst d))
         (datagrams (snd (ctcp_receive P state segment len))).
Proof.
  split.
  - revert input state.
    apply (ctcp_read_cases P now
             (fun _ _ r => Forall (fun d => bare (fst d))
                                  (datagrams (snd r))));
      cbn [snd datagrams flat_map app]; try (intros; constructor).
    + split; reflexivity.
    + constructor.
    + split; reflexivity.
    + assumption.
  - unfold ctcp_receive, receive_data.
    destruct (len >? SEGMENT_SIZE P);
      destruct (has_flag _ (TH_FIN P));
      cbn; repeat constructor.
Qed.

(** ** The sweep with a running clock *)

(** For a clock that stands still the loops with a clock are the loops
    above. *)
Lemma timer_nodes_clock_still (P : platform) (now : Z)
      (nodes : list ctcp_segment_t) (k : nat) (state : ctcp_state_t) :
  sweep_map fst (fst (timer_nodes_clock P (fun _ => now) k state nodes))
  = fst (timer_nodes P now state nodes) /\
  snd (timer_nodes_clock P (fun _ => now) k state nodes)
  = snd (timer_nodes P now state nodes).
Proof.
  revert k state. induction nodes as [|seg nodes IH]; intros k state;
    cbn [timer_nodes_clock timer_nodes].
  - split; reflexivity.
  - unfold timer_visit_clock, timer_visit.
    destruct (now - last_sent_time state >? rt_timeout state).
    + destruct (_ >=? MAX_NUM_XMITS P); [split; reflexivity|].
      match goal with
      | |- context [timer_nodes_clock P _ ?k' ?s nodes] =>
          destruct (IH k' s) as [H1 H2];
          destruct (timer_nodes_clock P (fun _ => now) k' s nodes);
          destruct (timer_nodes P now s nodes)
      end.
      cbn [fst snd] in *. split; congruence.
    + destruct (IH (S k) state) as [H1 H2].
      destruct (timer_nodes_clock P (fun _ => now) (S k) state nodes).
      destruct (timer_nodes P now state nodes).
      cbn [fst snd app] in *. split; congruence.
Qed.

Lemma ctcp_timer_clock_still (P : platform) (now : Z)
      (state_list : list ctcp_state_t) (k : nat) :
  sweep_map fst (fst (ctcp_timer_clock P (fun _ => now) k state_list))
  = fst (ctcp_timer P now state_list) /\
  snd (ctcp_timer_clock P (fun _ => now) k state_list)
  = snd (ctcp_timer P now state_list).
Proof.
  revert k. induction state_list as [|state next IH]; intros k;
    cbn [ctcp_timer_clock ctcp_timer].
  - split; reflexivity.
  - destruct (timer_nodes_clock_still P now (segments state) k state)
      as [H1 H2].
    destruct (timer_nodes_clock P (fun _ => now) k state (segments state))
      as [[[state' k']|] evs];
      destruct (timer_nodes P now state (segments state)) as [[st|] evs0];
      cbn [fst snd sweep_map] in H1, H2; try discriminate;
      [|split; [reflexivity | exact H2]].
    injection H1 as <-. subst evs0.
    destruct (IH k') as [H1 H2].
    destruct (ctcp_timer_clock P (fun _ => now) k' next) as [[[l k'']|] evs'];
      destruct (ctcp_timer P now next) as [[l0|] evs0'];
      cbn [fst snd sweep_map] in *; try discriminate.
    + injection H1 as <-. subst. split; reflexivity.
    + subst. split; reflexivity.
Qed.

Lemma timer_nodes_clock_not_due (P : platform) (clock : nat -> Z)
      (nodes : list ctcp_segment_t) (k : nat) (state : ctcp_state_t) :
  (forall j, (k <= j)%nat ->
             clock j - last_sent_time state <= rt_timeout state) ->
  timer_nodes_clock P clock k state nodes
  = (swept (state, (k + length nodes)%nat), []).
Proof.
  revert k. induction nodes as [|seg nodes IH]; intros k Hdue;
    cbn [timer_nodes_clock length].
  - rewrite Nat.add_0_r. reflexivity.
  - unfold timer_visit_clock. rewrite gtb_false by (apply Hdue; lia).
    rewrite IH by (intros j Hj; apply Hdue; lia).
    cbn [app]. do 3 f_equal. lia.
Qed.

(** After a retransmission no later node is due, when the clock gains no
    more than the timeout between two readings. *)
Lemma timer_nodes_clock_after_retransmission (P : platform)
      (clock : nat -> Z) (nodes : list ctcp_segment_t) (k : nat)
      (state : ctcp_state_t) :
  (forall i j, (i < j)%nat -> clock j - clock i <= rt_timeout state) ->
  timer_nodes_clock P clock (S (S k))
    (set_last_sent_time (clock (S k))
       (set_retransmit_count (retransmit_count state + 1) state)) nodes
  = (swept (set_last_sent_time (clock (S k))
              (set_retransmit_count (retransmit_count state + 1) state),
            (S (S k) + length nodes)%nat), []).
Proof.
  intros Hclock. apply timer_nodes_clock_not_due.
  intros j Hj.
  cbn [last_sent_time rt_timeout set_last_sent_time set_retransmit_count].
  apply Hclock. lia.
Qed.

(** X10.  When the clock gains no more than [rt_timeout] between any two
    of its readings during the call, the sweep of the list of one
    connection retransmits at most one segment of that connection, however
    many are unacknowledged. *)
Theorem timer_clock_one_retransmission
        (P : platform) (clock : nat -> Z) (nodes : list ctcp_segment_t)
        (k : nat) (state : ctcp_state_t) :
  (forall i j, (i < j)%nat -> clock j - clock i <= rt_timeout state) ->
  (length (datagrams (snd (timer_nodes_clock P clock k state nodes)))
   <= 1)%nat.
Proof.
  intros Hclock. revert k.
  induction nodes as [|seg nodes IH]; intros k; cbn [timer_nodes_clock].
  - cbn. lia.
  - unfold timer_visit_clock.
    destruct (clock k - last_sent_time state >? rt_timeout state).
    + destruct (_ >=? MAX_NUM_XMITS P); [cbn; lia|].
      rewrite timer_nodes_clock_after_retransmission by exact Hclock.
      cbn. lia.
    + specialize (IH (S k)).
      destruct (timer_nodes_clock P clock (S k) state nodes).
      exact IH.
Qed.

Lemma timer_clock_one_retransmission_witness :
  length (datagrams
            (snd (timer_nodes_clock sample (drifting 150) 0 two_in_flight
                    (segments two_in_flight)))) = 1%nat /\
  (length (datagrams
             (snd (timer_nodes_clock sample (drifting 150) 0 two_in_flight
                     (segments two_in_flight))))
   <= 1)%nat.
Proof.
  split; [reflexivity|].
  apply (timer_clock_one_retransmission sample (drifting 150)
           (segments two_in_flight) 0 two_in_flight).
  intros i j Hij. unfold drifting.
  change (rt_timeout two_in_flight) with 100. lia.
Defined.




(** ** Reading back what was written *)

(** C7, as the code has it.  What is written is read back: every header
    word stored with [htonl] reads back with [ntohl] as its 32-bit value,
    and for each segment the code builds (a data segment, a FIN, an ACK)
    the receiver path reads the seqno, ackno and flags that were written
    and hands the payload written to the sink.  But nothing is rejected:
    the checksum field is not examined, and a buffer no longer than the
    header is handled like a bare header, its ACK and FIN flags being acted
    upon. *)
Theorem C7_no_validation_on_receive
        (P : platform) (sender receiver : ctcp_state_t)
        (buffer : list byte) (segment : ctcp_segment_t)
        (len cksum value acked_seqno acked_len : Z) :
  let sent := data_segment P sender buffer in
  let n := SEGMENT_SIZE P + Z.of_nat (length buffer) in
  (ntohl P (htonl P value) = wrap32 value /\
   received P (sent, n)
   = {| view_seqno := wrap32 (seqno sender); view_ackno := 0;
        view_flags := 0; view_payload := buffer |} /\
   received P (fin_segment P sender, SEGMENT_SIZE P)
   = {| view_seqno := wrap32 (seqno sender); view_ackno := 0;
        view_flags := wrap32 (TH_FIN P); view_payload := [] |} /\
   received P (ack_segment P acked_seqno acked_len, SEGMENT_SIZE P)
   = {| view_seqno := 0; view_ackno := wrap32 (acked_seqno + acked_len);
        view_flags := wrap32 (TH_ACK P); view_payload := [] |} /\
   ntohl P (Segment.seqno sent) = wrap32 (seqno sender) /\
   sink_bytes (snd (ctcp_receive P receiver sent n)) = buffer) /\
  ctcp_receive P receiver (Segment.set_cksum cksum segment) len
  = ctcp_receive P receiver segment len /\
  ctcp_receive P receiver segment (Z.min len (SEGMENT_SIZE P))
  = ctcp_receive P receiver segment (SEGMENT_SIZE P).
Proof.
  cbv zeta.
  destruct (receive_path_validates_nothing P sender receiver buffer segment
              len cksum) as [[Hseq Hsink] [Hck Hshort]].
  split; [|split; assumption].
  split; [apply ntohl_htonl|].
  split.
  { unfold received. cbn [fst]. rewrite payload_data_segment.
    cbn [Segment.seqno Segment.ackno Segment.flags data_segment
         Segment.set_data Segment.set_len Segment.set_seqno Segment.zero].
    rewrite ntohl_htonl, ntohl_0. reflexivity. }
  split.
  { unfold received. cbn [fst]. rewrite payload_header_only.
    cbn [Segment.seqno Segment.ackno Segment.flags fin_segment
         Segment.set_len Segment.set_seqno Segment.set_flags Segment.zero].
    rewrite !ntohl_htonl, ntohl_0. reflexivity. }
  split.
  { unfold received. cbn [fst]. rewrite payload_header_only.
    cbn [Segment.seqno Segment.ackno Segment.flags ack_segment
         Segment.set_len Segment.set_ackno Segment.set_flags Segment.zero].
    rewrite !ntohl_htonl, ntohl_0. reflexivity. }
  split; assumption.
Qed.
